(** * dl-cs: the unrolled ISTA reconstruction network of [model.py]

    [model.py] is a TensorFlow 1 graph-construction program: every Python
    function takes tensors and returns tensors built from TensorFlow and
    [utils.tfmri] operations.  The functions are embedded over an
    interface [TensorOps] of those operations, so that one definition of
    each Python function can be read in three ways:
    - symbolically, as the computation graph it builds ([graph]);
    - by shape, through static shape inference on that graph;
    - by value, over exact complex arithmetic ([ntensor]).

    TensorFlow names the variables of a layer after the enclosing
    [tf.variable_scope] and a per-scope counter; that hidden state is the
    [Build] monad.  Calls to [tf.logging.info] only print and are left out.
    [model.py] raises nothing itself; a call fails where TensorFlow refuses
    a layer or a variable, which [call_unroll_ista] models.

    Floating-point arithmetic is idealised: values live in a commutative
    ring of exact scalars, so NaN, infinities and rounding are outside the
    model.  [utils.tfmri] is not part of the sources; its operations are
    fields of [TensorOps], and where a concrete one is needed it is modelled
    from the specification and marked as such. *)

From Stdlib Require Import ZArith QArith Qround Lia String Ascii List.
From Stdlib Require Import DecimalString DecimalNat FunctionalExtensionality.
From stdpp Require Import base option strings gmap list.

Local Open Scope string_scope.
Local Open Scope Z_scope.

(** ** Python numbers *)

(** [int(x)] on a Python float: truncation toward zero.  The floats the
    program feeds to [int] are [(n + 0.5) / 2] and [(n - 0.5) / 2] for small
    integers [n]; those are exact in binary floating point, so rationals
    model them without loss. *)
Definition py_int (x : Q) : Z := Z.quot (Qnum x) (Zpos (Qden x)).

(** [math.floor], as the specification words its padding formulas. *)
Definition py_floor (x : Q) : Z := Qfloor x.

(** [xs[i]] on a Python sequence of integers: negative [i] counts from the
    end.  Python raises [IndexError] outside the range; every use in
    [model.py] indexes the shape of a rank-4 tensor with an axis among
    0..3 or -1, and the model returns 0 elsewhere. *)
Definition py_index (xs : list Z) (i : Z) : Z :=
  let n := Z.of_nat (length xs) in
  let j := if i <? 0 then i + n else i in
  if (0 <=? j) && (j <? n) then nth (Z.to_nat j) xs 0 else 0.

(** ["%02d" % n] for a non-negative [n]: decimal, zero-padded to two
    characters. *)
Definition str_of_nat (n : nat) : string :=
  NilEmpty.string_of_uint (Nat.to_uint n).

Definition fmt_02d (n : nat) : string :=
  let s := str_of_nat n in
  if (String.length s <? 2)%nat then String "0" s else s.

(** ** Variable scopes *)

(** A graph-building computation runs inside a variable scope (a path of
    names) and draws default layer names from per-scope counters. *)
Definition Build (A : Type) : Type :=
  string → gmap string nat → A * gmap string nat.

#[global] Instance build_ret : MRet Build := λ A a _ c, (a, c).

#[global] Instance build_bind : MBind Build :=
  λ A B k m path c, let '(a, c') := m path c in k a path c'.

Definition scope_join (path name : string) : string :=
  if String.eqb path "" then name else path +:+ "/" +:+ name.

(** [with tf.variable_scope(name, reuse=...)]: the body runs one level
    deeper with fresh default-name counters, which are dropped again on
    exit.  A variable is identified by its full name, so entering the same
    scope twice reaches the same variables; [reuse] only decides whether
    TensorFlow accepts that (AUTO_REUSE) and has no effect on the names. *)
Definition variable_scope {A} (name : string) (body : Build A) : Build A :=
  λ path c, (fst (body (scope_join path name) ∅), c).

(** [with tf.name_scope(name)]: groups operations for display only. *)
Definition name_scope {A} (name : string) (body : Build A) : Build A := body.

(** Full name of a variable created by [tf.get_variable(name)]. *)
Definition variable_name (name : string) : Build string :=
  λ path c, (scope_join path name, c).

(** Name of the next layer created by [tf.layers] with the default name
    [base]: [base], [base_1], [base_2], ... within the current scope. *)
Definition layer_name (base : string) : Build string :=
  λ path c,
    let n := default 0%nat (c !! base) in
    let local := match n with O => base | _ => base +:+ "_" +:+ str_of_nat n end in
    (scope_join path local, <[base := S n]> c).

Definition run {A} (m : Build A) : A := fst (m "" ∅).

(** ** The tensor operations the program calls *)

(** A slice [a:b] along one axis, or [:] ([None]). *)
Definition slice_spec : Type := list (option (Z * Z)).

Class TensorOps (T : Type) := {
  (** Python number converted to a tensor by an arithmetic operator *)
  tf_constant : Z → T;
  (** [tf.shape(x)] and [x.shape] *)
  tf_shape : T → list Z;
  tf_add : T → T → T;
  tf_subtract : T → T → T;
  tf_multiply : T → T → T;
  tf_identity : T → string → T;
  tf_transpose : T → list Z → T;
  (** [tf.concat([a, b], axis)] *)
  tf_concat : T → T → Z → T;
  (** [x[s0, s1, s2, s3]] *)
  tf_getitem : T → slice_spec → T;
  tf_nn_relu : T → T;
  (** [tf.get_variable(name, initializer=tf.constant([v]))], by full name *)
  tf_get_variable : string → Z → T;
  (** [tf.layers.batch_normalization(x, axis, training, renorm=True,
      fused=True)], by layer name *)
  tf_layers_batch_normalization : string → T → Z → bool → T;
  (** [tf.layers.conv2d(x, filters, kernel_size, padding, use_bias,
      data_format)], by layer name *)
  tf_layers_conv2d : string → T → Z → Z → string → bool → string → T;
  (** [utils.tfmri] *)
  circular_pad : T → Z → Z → T;
  kspace_mask : T → T;
  model_forward : T → option T → T;
  model_transpose : T → option T → T;
  complex_to_channels : T → T;
  channels_to_complex : T → T
}.

(** ** model.py *)

Section Model.
Context {T : Type} `{TensorOps T}.

Definition _batch_norm (tf_input : T) (data_format : string)
    (training : bool) : Build T :=
  layer ← layer_name "batch_normalization";
  mret (tf_layers_batch_normalization layer tf_input
         (if String.eqb data_format "channels_first" then 1 else -1)
         training).

Definition _batch_norm_relu (tf_input : T) (data_format : string)
    (batchnorm training : bool) : Build T :=
  tf_output ← (if batchnorm then _batch_norm tf_input data_format training
               else mret tf_input);
  mret (tf_nn_relu tf_output).

(** The crops [x[:, a:b, c:d, :]] (channels last) and [x[:, :, a:b, c:d]]. *)
Definition crop (x : T) (data_format : string) (z y : Z * Z) : T :=
  if String.eqb data_format "channels_last"
  then tf_getitem x [None; Some z; Some y; None]
  else tf_getitem x [None; None; Some z; Some y].

Definition _conv2d (tf_input : T) (num_features kernel_size : Z)
    (data_format : string) (circular use_bias : bool) : Build T :=
  let '(axis_z, axis_y) :=
    if String.eqb data_format "channels_last" then (1, 2) else (2, 3) in
  let tf_output := tf_input in
  let shape_input := tf_shape tf_input in
  let shape_z := py_index shape_input axis_z in
  let shape_y := py_index shape_input axis_y in
  let pad := py_int ((inject_Z kernel_size - 0.5) / 2)%Q in
  let tf_output :=
    if circular && (0 <? pad)
    then circular_pad (circular_pad tf_output pad axis_z) pad axis_y
    else tf_output in
  layer ← layer_name "conv2d";
  let tf_output :=
    tf_layers_conv2d layer tf_output num_features kernel_size "same"
      use_bias data_format in
  let tf_output :=
    if circular && (0 <? pad)
    then crop tf_output data_format (pad, shape_z + pad) (pad, shape_y + pad)
    else tf_output in
  mret tf_output.

(** [for i in range(n): s = body(i, s)]; [range] of a negative number is
    empty. *)
Definition py_range (n : Z) : list nat := seq 0 (Z.to_nat n).

Fixpoint for_each {S : Type} (steps : list nat) (body : nat → S → Build S)
    (s : S) : Build S :=
  match steps with
  | [] => mret s
  | i :: rest => s' ← body i s; for_each rest body s'
  end.

Definition _res_block (net_input : T) (num_features kernel_size : Z)
    (data_format : string) (circular batchnorm training : bool)
    (name : string) : Build T :=
  let '(axis_z, axis_y, axis_c) :=
    if String.eqb data_format "channels_last" then (1, 2, 3) else (2, 3, 1) in
  let shape_z := py_index (tf_shape net_input) axis_z in
  let shape_y := py_index (tf_shape net_input) axis_y in
  let shape_c := py_index (tf_shape net_input) axis_c in
  let pad := py_int ((inject_Z (2 * (kernel_size - 1)) + 0.5) / 2)%Q in
  name_scope name (
    let shortcut := net_input in
    shortcut ← (if negb (num_features =? shape_c)
                then _conv2d shortcut num_features 1 data_format false
                       (negb batchnorm)
                else mret shortcut);
    let net_cur := net_input in
    let net_cur :=
      if circular
      then circular_pad (circular_pad net_cur pad axis_z) pad axis_y
      else net_cur in
    net_cur ← _batch_norm_relu net_cur data_format batchnorm training;
    net_cur ← _conv2d net_cur num_features kernel_size data_format false
                (negb batchnorm);
    net_cur ← _batch_norm_relu net_cur data_format batchnorm training;
    net_cur ← _conv2d net_cur num_features kernel_size data_format false
                (negb batchnorm);
    let net_cur :=
      if circular
      then crop net_cur data_format (pad, pad + shape_z) (pad, pad + shape_y)
      else net_cur in
    mret (tf_add net_cur shortcut)).

(** Returns [(net, net_dense)]. *)
Definition prior_grad_res_net (curr_x : T) (num_features kernel_size
    num_blocks : Z) (circular : bool) (data_format : string)
    (do_residual batchnorm training : bool) (num_features_out : option Z)
    (name : string) : Build (T * T) :=
  let '(axis_z, axis_y, axis_c) :=
    if String.eqb data_format "channels_last" then (1, 2, 3) else (2, 3, 1) in
  let num_features_in := py_index (tf_shape curr_x) axis_c in
  let num_features_out := default num_features_in num_features_out in
  let shape_z := py_index (tf_shape curr_x) axis_z in
  let shape_y := py_index (tf_shape curr_x) axis_y in
  let num_conv2d := num_blocks * 2 + 1 in
  let pad := py_int ((inject_Z (num_conv2d * (kernel_size - 1)) + 0.5) / 2)%Q in
  name_scope name (
    let net := curr_x in
    let shortcut := net in
    shortcut ← (if do_residual && negb (num_features_in =? num_features_out)
                then _conv2d shortcut num_features_out 1 data_format false
                       (negb batchnorm)
                else mret shortcut);
    let net :=
      if circular
      then circular_pad (circular_pad net pad axis_z) pad axis_y
      else net in
    net ← for_each (py_range num_blocks)
            (λ _ net, _res_block net num_features kernel_size data_format
                        false batchnorm training "res_block")
            net;
    let net_dense := net in
    net ← _batch_norm_relu net data_format batchnorm training;
    net ← _conv2d net num_features_out kernel_size data_format false
            (negb batchnorm);
    let '(net, net_dense) :=
      if circular
      then (crop net data_format (pad, pad + shape_z) (pad, pad + shape_y),
            crop net_dense data_format (pad, pad + shape_z) (pad, pad + shape_y))
      else (net, net_dense) in
    let net := if do_residual then tf_add net shortcut else net in
    mret (net, net_dense)).

(** The keyword arguments of [unroll_ista] that are plain Python values;
    [default_args] holds the defaults of the signature. *)
Record ista_args := {
  num_grad_steps : Z;
  resblock_num_features : Z;
  resblock_num_blocks : Z;
  resblock_share : bool;
  training : bool;
  scope : string;
  hard_projection : bool;
  do_dense : bool;
  batchnorm : bool;
  circular : bool;
  fix_update : bool
}.

Definition default_args : ista_args := {|
  num_grad_steps := 4;
  resblock_num_features := 128;
  resblock_num_blocks := 3;
  resblock_share := false;
  training := true;
  scope := "MRI";
  hard_projection := true;
  do_dense := false;
  batchnorm := true;
  circular := true;
  fix_update := false
|}.

(** The variables the loop of [unroll_ista] updates. *)
Record ista_state := {
  ks_k : T;
  im_k : T;
  im_dense : option T;
  summary_iter : gmap string T
}.

Definition iter_name (i_step : nat) : string := "iter_" +:+ fmt_02d i_step.

Definition scope_name (a : ista_args) (i_step : nat) : string :=
  if resblock_share a then "iter" else iter_name i_step.

(** Body of [with tf.variable_scope("update")]: returns [(ks_k, im_k)]. *)
Definition update_block (a : ista_args) (sensemap : option T) (mask im_0 : T)
    (im_k : T) : Build (T * T) :=
  let im_k_orig := im_k in
  let ks_k := model_forward im_k sensemap in
  let ks_k := tf_multiply mask ks_k in
  let im_k := model_transpose ks_k sensemap in
  let im_k := complex_to_channels (tf_subtract im_k im_0) in
  let im_k_orig := complex_to_channels im_k_orig in
  t_update ← (if fix_update a then mret (tf_constant (-2))
              else t ← variable_name "t"; mret (tf_get_variable t (-2)));
  let im_k := tf_add im_k_orig (tf_multiply t_update im_k) in
  mret (ks_k, im_k).

(** Body of [with tf.variable_scope("prox")]: returns [(im_k, im_dense)]. *)
Definition prox_block (a : ista_args) (im_k : T) (im_dense : option T)
    : Build (T * option T) :=
  let num_channels_out := py_index (tf_shape im_k) (-1) in
  let im_k := tf_transpose im_k [0; 3; 1; 2] in
  let im_k :=
    match im_dense with
    | Some d => tf_concat im_k d 1
    | None => im_k
    end in
  '(im_k, im_dense_k) ←
    prior_grad_res_net im_k (resblock_num_features a) 3
      (resblock_num_blocks a) (circular a) "channels_first" true
      (batchnorm a) (training a) (Some num_channels_out) "prior_grad_resnet";
  let im_dense :=
    if do_dense a
    then match im_dense with
         | Some d => Some (tf_concat d im_dense_k 1)
         | None => Some im_dense_k
         end
    else im_dense in
  let im_k := tf_transpose im_k [0; 2; 3; 1] in
  let im_k := channels_to_complex im_k in
  mret (im_k, im_dense).

(** Body of [for i_step in range(num_grad_steps)]. *)
Definition iteration (a : ista_args) (sensemap : option T) (mask im_0 : T)
    (i_step : nat) (st : ista_state) : Build ista_state :=
  variable_scope (scope_name a i_step) (
    '(ks_k', im_k') ←
      variable_scope "update" (update_block a sensemap mask im_0 (im_k st));
    '(im_k', im_dense') ←
      variable_scope "prox" (prox_block a im_k' (im_dense st));
    let im_k' := tf_identity im_k' "image" in
    name_scope "summary" (
      mret {| ks_k := ks_k'; im_k := im_k'; im_dense := im_dense';
              summary_iter := <[iter_name i_step := im_k']> (summary_iter st) |})).

(** Returns [(im_k, ks_k, summary_iter)].  [mask_output] defaults to
    [Some (tf_constant 1)] and [mask] to [None]. *)
Definition unroll_ista (ks_input : T) (sensemap : option T) (a : ista_args)
    (mask_output : option T) (mask : option T)
    : Build (T * T * gmap string T) :=
  variable_scope (scope a) (
    let mask :=
      match mask with
      | None => kspace_mask ks_input
      | Some m => m
      end in
    let ks_input := tf_multiply mask ks_input in
    let ks_0 := ks_input in
    let im_0 := model_transpose ks_0 sensemap in
    let im_0 := tf_identity im_0 "input_image" in
    st ← for_each (py_range (num_grad_steps a))
           (iteration a sensemap mask im_0)
           {| ks_k := ks_0; im_k := im_0; im_dense := None;
              summary_iter := ∅ |};
    let ks_k := model_forward (im_k st) sensemap in
    let '(ks_k, im_k) :=
      if hard_projection a
      then
        let ks_k :=
          tf_add (tf_multiply mask ks_0)
                 (tf_multiply (tf_subtract (tf_constant 1) mask) ks_k) in
        let ks_k :=
          match mask_output with
          | Some mo => tf_multiply ks_k mo
          | None => ks_k
          end in
        (ks_k, model_transpose ks_k sensemap)
      else (ks_k, im_k st) in
    let ks_k := tf_identity ks_k "output_kspace" in
    let im_k := tf_identity im_k "output_image" in
    mret (im_k, ks_k, summary_iter st)).

End Model.

Arguments ista_state T : clear implicits.

(** ** Names for the intermediate values of [unroll_ista] *)

Section Run.
Context {T : Type} `{TensorOps T}.

(** [apply_mask(kspace, mask)] of the specification: the products
    [mask * ks_input] and [mask * ks_k] of [unroll_ista]. *)
Definition apply_mask (kspace mask : T) : T := tf_multiply mask kspace.

(** The mask in use: the one supplied, or the one derived from the input. *)
Definition used_mask (ks_input : T) (mask : option T) : T :=
  match mask with
  | None => kspace_mask ks_input
  | Some m => m
  end.

(** [ks_0], the masked input, and [im_0], the anchor image. *)
Definition masked_input (ks_input : T) (mask : option T) : T :=
  apply_mask ks_input (used_mask ks_input mask).

Definition anchor_image (ks_input : T) (sensemap mask : option T) : T :=
  tf_identity (model_transpose (masked_input ks_input mask) sensemap)
    "input_image".

(** The loop variables after the first [n] iterations of a call made in the
    variable scope [path]. *)
Definition state_after (n : nat) (ks_input : T) (sensemap : option T)
    (a : ista_args) (mask : option T) (path : string) : ista_state T :=
  fst (for_each (seq 0 n)
         (iteration a sensemap (used_mask ks_input mask)
            (anchor_image ks_input sensemap mask))
         {| ks_k := masked_input ks_input mask;
            im_k := anchor_image ks_input sensemap mask;
            im_dense := None; summary_iter := ∅ |}
         (scope_join path (scope a)) ∅).

(** The hard data-consistency projection of a predicted k-space. *)
Definition projected (ks_input : T) (mask mask_output : option T)
    (predicted : T) : T :=
  let m := used_mask ks_input mask in
  let ks_k :=
    tf_add (tf_multiply m (masked_input ks_input mask))
           (tf_multiply (tf_subtract (tf_constant 1) m) predicted) in
  match mask_output with
  | Some mo => tf_multiply ks_k mo
  | None => ks_k
  end.

(** Full name of the step-size variable [t] of iteration [i_step], for a
    call made in the variable scope [path]. *)
Definition t_name (path : string) (a : ista_args) (i_step : nat) : string :=
  scope_join
    (scope_join (scope_join (scope_join path (scope a)) (scope_name a i_step))
       "update")
    "t".

(** [unroll_ista] with the recording of [summary_iter] removed from the
    loop body, to compare the solver with: everything else is as in
    [iteration] and [unroll_ista]. *)
Definition iteration_unrecorded (a : ista_args) (sensemap : option T)
    (mask im_0 : T) (i_step : nat) (st : ista_state T) : Build (ista_state T) :=
  variable_scope (scope_name a i_step) (
    '(ks_k', im_k') ←
      variable_scope "update" (update_block a sensemap mask im_0 (im_k st));
    '(im_k', im_dense') ←
      variable_scope "prox" (prox_block a im_k' (im_dense st));
    let im_k' := tf_identity im_k' "image" in
    mret {| ks_k := ks_k'; im_k := im_k'; im_dense := im_dense';
            summary_iter := summary_iter st |}).

Definition unroll_ista_unrecorded (ks_input : T) (sensemap : option T)
    (a : ista_args) (mask_output : option T) (mask : option T)
    : Build (T * T) :=
  variable_scope (scope a) (
    let mask := used_mask ks_input mask in
    let ks_0 := tf_multiply mask ks_input in
    let im_0 := tf_identity (model_transpose ks_0 sensemap) "input_image" in
    st ← for_each (py_range (num_grad_steps a))
           (iteration_unrecorded a sensemap mask im_0)
           {| ks_k := ks_0; im_k := im_0; im_dense := None;
              summary_iter := ∅ |};
    let ks_k := model_forward (im_k st) sensemap in
    let '(ks_k, im_k) :=
      if hard_projection a
      then
        let ks_k :=
          tf_add (tf_multiply mask ks_0)
                 (tf_multiply (tf_subtract (tf_constant 1) mask) ks_k) in
        let ks_k :=
          match mask_output with
          | Some mo => tf_multiply ks_k mo
          | None => ks_k
          end in
        (ks_k, model_transpose ks_k sensemap)
      else (ks_k, im_k st) in
    mret (tf_identity im_k "output_image", tf_identity ks_k "output_kspace")).

End Run.

(** Axes [(z, y, channels)] of a data format, as every function of
    [model.py] starts by computing them. *)
Definition data_axes (data_format : string) : Z * Z * Z :=
  if String.eqb data_format "channels_last" then (1, 2, 3) else (2, 3, 1).

(** ** Static shapes

    What TensorFlow's shape inference gives for each operation.  Shapes are
    lists of dimension sizes. *)

(** Axis [i] of a rank-[n] tensor, negative axes counted from the end. *)
Definition norm_axis (n : nat) (axis : Z) : nat :=
  Z.to_nat (if axis <? 0 then axis + Z.of_nat n else axis).

Definition set_dim (s : list Z) (axis : Z) (d : Z) : list Z :=
  <[norm_axis (length s) axis := d]> s.

(** Element-wise operators broadcast: shapes are aligned at their last
    axis and a dimension of size 1 stretches to the other one. *)
Fixpoint broadcast_rev (a b : list Z) : list Z :=
  match a, b with
  | [], _ => b
  | _, [] => a
  | x :: a', y :: b' => (if x =? 1 then y else x) :: broadcast_rev a' b'
  end.

Definition broadcast_shape (a b : list Z) : list Z :=
  rev (broadcast_rev (rev a) (rev b)).

(** Length of the Python slice [lo:hi] of a sequence of length [n]. *)
Definition slice_bound (n i : Z) : Z :=
  if i <? 0 then Z.max 0 (i + n) else Z.min i n.

Definition slice_len (n : Z) (s : option (Z * Z)) : Z :=
  match s with
  | None => n
  | Some (lo, hi) => Z.max 0 (slice_bound n hi - slice_bound n lo)
  end.

Fixpoint getitem_shape (s : list Z) (sl : slice_spec) : list Z :=
  match s, sl with
  | n :: s', x :: sl' => slice_len n x :: getitem_shape s' sl'
  | _, _ => s
  end.

(** Modelled from the spec: [utils.tfmri.circular_pad] is not part of the
    sources; it "extends a chosen spatial axis by p elements on each side". *)
Definition circular_pad_shape (s : list Z) (pad axis : Z) : list Z :=
  set_dim s axis (py_index s axis + 2 * pad).

(** [tf.layers.conv2d] with [padding='same'] and stride 1 keeps the spatial
    extent and sets the channel count to [filters]. *)
Definition conv2d_same_shape (s : list Z) (filters : Z) (data_format : string)
    : list Z :=
  set_dim s (if String.eqb data_format "channels_last" then 3 else 1) filters.

Definition transpose_shape (s : list Z) (perm : list Z) : list Z :=
  map (py_index s) perm.

Definition concat_shape (a b : list Z) (axis : Z) : list Z :=
  set_dim a axis (py_index a axis + py_index b axis).

(** Modelled from the spec: [complex_to_channels] and [channels_to_complex]
    are not part of the sources; a complex tensor is "repacked into separate
    real/imaginary channels", read here as the two parts side by side along
    the last axis. *)
Definition complex_to_channels_shape (s : list Z) : list Z :=
  set_dim s (-1) (2 * py_index s (-1)).

Definition channels_to_complex_shape (s : list Z) : list Z :=
  set_dim s (-1) (py_index s (-1) / 2).

(** ** The computation graph *)

#[warnings="-register-all"]
Inductive graph : Type :=
| Placeholder (name : string) (shape : list Z)
| Constant (v : Z)
| GetVariable (name : string) (init : Z)
| TfAdd (a b : graph)
| TfSubtract (a b : graph)
| TfMultiply (a b : graph)
| Identity (x : graph) (name : string)
| Transpose (x : graph) (perm : list Z)
| Concat (a b : graph) (axis : Z)
| GetItem (x : graph) (sl : slice_spec)
| Relu (x : graph)
| BatchNormalization (layer : string) (x : graph) (axis : Z) (training : bool)
| Conv2D (layer : string) (x : graph) (filters kernel_size : Z)
    (padding : string) (use_bias : bool) (data_format : string)
| CircularPad (x : graph) (pad axis : Z)
| KspaceMask (x : graph)
| ModelForward (x : graph) (sensemap : option graph)
| ModelTranspose (x : graph) (sensemap : option graph)
| ComplexToChannels (x : graph)
| ChannelsToComplex (x : graph).

Module Graph.
Section Shapes.
(** The shapes of the sensing operator's results, from the shapes of its
    arguments: [utils.tfmri] is not part of the sources. *)
Variable forward_shape transpose_shape' : list Z → option (list Z) → list Z.

Fixpoint shape (g : graph) : list Z :=
  match g with
  | Placeholder _ s => s
  | Constant _ => []
  | GetVariable _ _ => [1]
  | TfAdd a b | TfSubtract a b | TfMultiply a b => broadcast_shape (shape a) (shape b)
  | Identity x _ => shape x
  | Transpose x perm => transpose_shape (shape x) perm
  | Concat a b axis => concat_shape (shape a) (shape b) axis
  | GetItem x sl => getitem_shape (shape x) sl
  | Relu x => shape x
  | BatchNormalization _ x _ _ => shape x
  | Conv2D _ x filters _ _ _ data_format =>
      conv2d_same_shape (shape x) filters data_format
  | CircularPad x pad axis => circular_pad_shape (shape x) pad axis
  | KspaceMask x => shape x
  | ModelForward x sm =>
      forward_shape (shape x) (match sm with Some s => Some (shape s) | None => None end)
  | ModelTranspose x sm =>
      transpose_shape' (shape x) (match sm with Some s => Some (shape s) | None => None end)
  | ComplexToChannels x => complex_to_channels_shape (shape x)
  | ChannelsToComplex x => channels_to_complex_shape (shape x)
  end.

Definition ops : TensorOps graph := {|
  tf_constant := Constant;
  tf_shape := shape;
  tf_add := TfAdd;
  tf_subtract := TfSubtract;
  tf_multiply := TfMultiply;
  tf_identity := Identity;
  tf_transpose := Transpose;
  tf_concat := Concat;
  tf_getitem := GetItem;
  tf_nn_relu := Relu;
  tf_get_variable := GetVariable;
  tf_layers_batch_normalization := BatchNormalization;
  tf_layers_conv2d := Conv2D;
  circular_pad := CircularPad;
  kspace_mask := KspaceMask;
  model_forward := ModelForward;
  model_transpose := ModelTranspose;
  complex_to_channels := ComplexToChannels;
  channels_to_complex := ChannelsToComplex
|}.

(** Number of operations of a graph that satisfy [p], shared subgraphs
    counted once per use. *)
Fixpoint count (p : graph → bool) (g : graph) : nat :=
  ((if p g then 1 else 0) +
  match g with
  | Placeholder _ _ | Constant _ | GetVariable _ _ => 0
  | TfAdd a b | TfSubtract a b | TfMultiply a b | Concat a b _ => count p a + count p b
  | Identity x _ | Transpose x _ | GetItem x _ | Relu x
  | BatchNormalization _ x _ _ | Conv2D _ x _ _ _ _ _ | CircularPad x _ _
  | KspaceMask x | ComplexToChannels x | ChannelsToComplex x => count p x
  | ModelForward x sm | ModelTranspose x sm =>
      count p x + match sm with Some s => count p s | None => 0 end
  end)%nat.

(** The operations of a graph: the graph and all its subgraphs. *)
Fixpoint nodes (g : graph) : list graph :=
  g ::
  match g with
  | Placeholder _ _ | Constant _ | GetVariable _ _ => []
  | TfAdd a b | TfSubtract a b | TfMultiply a b | Concat a b _ => nodes a ++ nodes b
  | Identity x _ | Transpose x _ | GetItem x _ | Relu x
  | BatchNormalization _ x _ _ | Conv2D _ x _ _ _ _ _ | CircularPad x _ _
  | KspaceMask x | ComplexToChannels x | ChannelsToComplex x => nodes x
  | ModelForward x sm | ModelTranspose x sm =>
      nodes x ++ match sm with Some s => nodes s | None => [] end
  end.

Definition is_circular_pad (g : graph) : bool :=
  match g with CircularPad _ _ _ => true | _ => false end.

Definition is_getitem (g : graph) : bool :=
  match g with GetItem _ _ => true | _ => false end.

Definition is_conv2d (g : graph) : bool :=
  match g with Conv2D _ _ _ _ _ _ _ => true | _ => false end.

Definition is_pad_or_crop (g : graph) : bool :=
  is_circular_pad g || is_getitem g.

(** Every circular pad and every crop among the operations of [g]
    satisfies [S]. *)
Definition only_from (S : graph → Prop) (g : graph) : Prop :=
  ∀ n, n ∈ nodes g → is_pad_or_crop n = true → S n.

End Shapes.
End Graph.

(** ** Outcomes

    The result of calling a Python function: the value it returns or the
    exception it raises. *)

Inductive outcome (A : Type) : Type :=
| Returns (a : A)
| Raises (exception : string).
Arguments Returns {A} a.
Arguments Raises {A} exception.

(** A configuration without residual blocks and without features. *)
Definition no_blocks : ista_args := {|
  num_grad_steps := 1;
  resblock_num_features := 0;
  resblock_num_blocks := 0;
  resblock_share := false;
  training := true;
  scope := "MRI";
  hard_projection := true;
  do_dense := false;
  batchnorm := true;
  circular := true;
  fix_update := false
|}.

(** ** Laws of the tensor operations *)

(** Shape inference, as TensorFlow performs it for the operations of the
    prior network. *)
Class ShapeLaws (T : Type) `{TensorOps T} : Prop := {
  shape_relu : ∀ x, tf_shape (tf_nn_relu x) = tf_shape x;
  shape_batch_normalization : ∀ layer x axis training,
    tf_shape (tf_layers_batch_normalization layer x axis training) = tf_shape x;
  shape_conv2d : ∀ layer x filters k use_bias data_format,
    tf_shape (tf_layers_conv2d layer x filters k "same" use_bias data_format)
    = conv2d_same_shape (tf_shape x) filters data_format;
  shape_circular_pad : ∀ x pad axis,
    tf_shape (circular_pad x pad axis) = circular_pad_shape (tf_shape x) pad axis;
  shape_getitem : ∀ x sl,
    tf_shape (tf_getitem x sl) = getitem_shape (tf_shape x) sl;
  shape_add : ∀ a b,
    tf_shape (tf_add a b) = broadcast_shape (tf_shape a) (tf_shape b)
}.

(** Scalars of exact arithmetic: the operations of a commutative ring. *)
Class Scalar (C : Type) := {
  c0 : C;
  c1 : C;
  cadd : C → C → C;
  cmul : C → C → C;
  csub : C → C → C;
  copp : C → C
}.

Class ScalarLaws (C : Type) `{Scalar C} : Prop := {
  scalar_ring : ring_theory c0 c1 cadd cmul csub copp eq
}.

(** The integer [z] as a scalar. *)
Definition of_Z {C} `{Scalar C} (z : Z) : C := gen_phiZ c0 c1 cadd cmul copp z.

(** Values: [value_at x i] is the entry of [x] at location [i], read
    through broadcasting (a tensor of lower rank or with axes of size 1
    shows the same entry along the axes it is stretched over). *)
Class Valued (T C : Type) := { value_at : T → list Z → C }.

Class ValueLaws (T C : Type) `{TensorOps T} `{Scalar C} `{Valued T C} : Prop := {
  value_constant : ∀ z i, value_at (tf_constant z) i = of_Z z;
  value_add : ∀ a b i, value_at (tf_add a b) i = cadd (value_at a i) (value_at b i);
  value_subtract : ∀ a b i,
    value_at (tf_subtract a b) i = csub (value_at a i) (value_at b i);
  value_multiply : ∀ a b i,
    value_at (tf_multiply a b) i = cmul (value_at a i) (value_at b i);
  shape_constant : ∀ z, tf_shape (tf_constant z) = [];
  shape_plus : ∀ a b,
    tf_shape (tf_add a b) = broadcast_shape (tf_shape a) (tf_shape b);
  shape_subtract : ∀ a b,
    tf_shape (tf_subtract a b) = broadcast_shape (tf_shape a) (tf_shape b);
  shape_multiply : ∀ a b,
    tf_shape (tf_multiply a b) = broadcast_shape (tf_shape a) (tf_shape b);
  (** [tf.identity] only names its argument *)
  identity_value : ∀ x name, tf_identity x name = x;
  (** a tensor is its shape and its entries *)
  tensor_ext : ∀ a b,
    tf_shape a = tf_shape b → (∀ i, value_at a i = value_at b i) → a = b
}.

(** The factor the projected k-space is scaled by at a location:
    [mask_output], or 1 when it is [None]. *)
Definition output_scale {T C : Type} `{Scalar C} `{Valued T C}
    (mask_output : option T) (i : list Z) : C :=
  match mask_output with
  | Some mo => value_at mo i
  | None => c1
  end.

(** ** Tensors of exact numbers

    A tensor is a shape and its entries, given for every index list and
    read through broadcasting.  What TensorFlow computes with floating
    point is computed here in a commutative ring of exact scalars. *)

Module Numeric.
Section Tensors.
Context {C : Type} `{Scalar C}.

Record ntensor := { nshape : list Z; ndata : list Z → C }.

(** What the numerics library and the parameter store supply. *)
Record numerics := {
  (** [max(x, 0)] on a real scalar *)
  relu_scalar : C → C;
  (** [abs(x) > 0] *)
  is_nonzero : C → bool;
  real_part : C → C;
  imag_part : C → C;
  make_complex : C → C → C;
  (** value of the entry [i] of the variable [name] *)
  variable_value : string → list Z → C;
  (** scale and shift that batch normalization applies to a channel of its
      input: learned and moving statistics, and in training mode the
      statistics of the input itself *)
  batch_norm_coeff : string → bool → ntensor → Z → C * C;
  (** the sensing operator of [utils.tfmri] *)
  sense_forward : ntensor → option ntensor → ntensor;
  sense_transpose : ntensor → option ntensor → ntensor
}.

Variable nm : numerics.

#[global] Instance valued : Valued ntensor C := {| value_at := ndata |}.

Definition sum_upto (n : nat) (f : nat → C) : C :=
  fold_right cadd c0 (map f (seq 0 n)).

Definition pointwise2 (op : C → C → C) (a b : ntensor) : ntensor :=
  {| nshape := broadcast_shape (nshape a) (nshape b);
     ndata := λ i, op (ndata a i) (ndata b i) |}.

Definition nconstant (z : Z) : ntensor :=
  {| nshape := []; ndata := λ _, of_Z z |}.

Definition nget_variable (name : string) (init : Z) : ntensor :=
  {| nshape := [1]; ndata := λ _, variable_value nm name [0] |}.

(** [out[i] = x[j]] where [j[perm[k]] = i[k]]. *)
Definition ntranspose (x : ntensor) (perm : list Z) : ntensor :=
  {| nshape := transpose_shape (nshape x) perm;
     ndata := λ i,
       ndata x (fold_right (λ '(p, v) j, set_dim j p v)
                           (replicate (length i) 0) (zip perm i)) |}.

Definition nconcat (a b : ntensor) (axis : Z) : ntensor :=
  {| nshape := concat_shape (nshape a) (nshape b) axis;
     ndata := λ i,
       let n := py_index (nshape a) axis in
       if py_index i axis <? n then ndata a i
       else ndata b (set_dim i axis (py_index i axis - n)) |}.

Fixpoint getitem_index (s : list Z) (sl : slice_spec) (i : list Z) : list Z :=
  match s, sl, i with
  | n :: s', Some (lo, _) :: sl', k :: i' =>
      (k + slice_bound n lo) :: getitem_index s' sl' i'
  | _ :: s', None :: sl', k :: i' => k :: getitem_index s' sl' i'
  | _, _, _ => i
  end.

Definition ngetitem (x : ntensor) (sl : slice_spec) : ntensor :=
  {| nshape := getitem_shape (nshape x) sl;
     ndata := λ i, ndata x (getitem_index (nshape x) sl i) |}.

Definition nrelu (x : ntensor) : ntensor :=
  {| nshape := nshape x; ndata := λ i, relu_scalar nm (ndata x i) |}.

Definition nbatch_normalization (layer : string) (x : ntensor) (axis : Z)
    (training : bool) : ntensor :=
  {| nshape := nshape x;
     ndata := λ i,
       let '(scale, shift) :=
         batch_norm_coeff nm layer training x (py_index i axis) in
       cadd (cmul scale (ndata x i)) shift |}.

Definition in_range (n k : Z) : bool := (0 <=? k) && (k <? n).

(** Entry of [x] at the spatial position [(z, y)] and channel [c] of the
    image that [i] points into, zero outside the spatial extent. *)
Definition zero_padded (x : ntensor) (data_format : string) (i : list Z)
    (z y c : Z) : C :=
  let '(az, ay, ac) := data_axes data_format in
  if in_range (py_index (nshape x) az) z && in_range (py_index (nshape x) ay) y
  then ndata x (set_dim (set_dim (set_dim i ac c) az z) ay y)
  else c0.

(** The same with a periodic boundary. *)
Definition wrapped (x : ntensor) (data_format : string) (i : list Z)
    (z y c : Z) : C :=
  let '(az, ay, ac) := data_axes data_format in
  ndata x (set_dim (set_dim (set_dim i ac c) az (z mod py_index (nshape x) az))
                   ay (y mod py_index (nshape x) ay)).

(** The sum of a convolution at the output index [i], over a [k] by [k]
    window whose first tap sits [before] positions ahead of the output
    position; [source] reads the input. *)
Definition conv_sum (layer : string) (x : ntensor) (k before : Z)
    (use_bias : bool) (data_format : string)
    (source : ntensor → string → list Z → Z → Z → Z → C) (i : list Z) : C :=
  let '(az, ay, ac) := data_axes data_format in
  let f := py_index i ac in
  let taps :=
    sum_upto (Z.to_nat k) (λ a,
      sum_upto (Z.to_nat k) (λ b,
        sum_upto (Z.to_nat (py_index (nshape x) ac)) (λ c,
          cmul (variable_value nm (layer +:+ "/kernel")
                  [Z.of_nat a; Z.of_nat b; Z.of_nat c; f])
               (source x data_format i
                  (py_index i az + Z.of_nat a - before)
                  (py_index i ay + Z.of_nat b - before)
                  (Z.of_nat c))))) in
  if use_bias then cadd taps (variable_value nm (layer +:+ "/bias") [f])
  else taps.

(** [tf.layers.conv2d] with stride 1: a cross-correlation with the kernel
    of the layer.  With [padding='same'] the input is extended by zeros,
    [(k-1) // 2] of them before the first position, and the spatial extent is
    kept; otherwise ('valid') only full windows are taken. *)
Definition nconv2d (layer : string) (x : ntensor) (filters k : Z)
    (padding : string) (use_bias : bool) (data_format : string) : ntensor :=
  if String.eqb padding "same"
  then {| nshape := conv2d_same_shape (nshape x) filters data_format;
          ndata := conv_sum layer x k ((k - 1) / 2) use_bias data_format
                     zero_padded |}
  else
    let '(az, ay, ac) := data_axes data_format in
    {| nshape :=
         set_dim (set_dim (set_dim (nshape x) ac filters)
                    az (py_index (nshape x) az - k + 1))
           ay (py_index (nshape x) ay - k + 1);
       ndata := conv_sum layer x k 0 use_bias data_format zero_padded |}.

(** Modelled from the spec: [utils.tfmri.circular_pad] is not part of the
    sources; it "extends a chosen spatial axis by p elements on each side by
    wrapping values from the opposite edge (periodic boundary)". *)
Definition ncircular_pad (x : ntensor) (pad axis : Z) : ntensor :=
  {| nshape := circular_pad_shape (nshape x) pad axis;
     ndata := λ i,
       ndata x (set_dim i axis ((py_index i axis - pad) mod py_index (nshape x) axis)) |}.

(** Modelled from the spec: [utils.tfmri.kspace_mask] is not part of the
    sources; the mask is derived "from nonzero locations of the input
    k-space". *)
Definition nkspace_mask (x : ntensor) : ntensor :=
  {| nshape := nshape x;
     ndata := λ i, if is_nonzero nm (ndata x i) then c1 else c0 |}.

(** Modelled from the spec: [utils.tfmri.complex_to_channels] and
    [channels_to_complex] are not part of the sources; real parts fill the
    first half of the last axis and imaginary parts the second half. *)
Definition ncomplex_to_channels (x : ntensor) : ntensor :=
  {| nshape := complex_to_channels_shape (nshape x);
     ndata := λ i,
       let n := py_index (nshape x) (-1) in
       let c := py_index i (-1) in
       if c <? n then real_part nm (ndata x i)
       else imag_part nm (ndata x (set_dim i (-1) (c - n))) |}.

Definition nchannels_to_complex (x : ntensor) : ntensor :=
  {| nshape := channels_to_complex_shape (nshape x);
     ndata := λ i,
       let n := py_index (nshape x) (-1) / 2 in
       let c := py_index i (-1) in
       make_complex nm (ndata x i) (ndata x (set_dim i (-1) (c + n))) |}.

Definition ops : TensorOps ntensor := {|
  tf_constant := nconstant;
  tf_shape := nshape;
  tf_add := pointwise2 cadd;
  tf_subtract := pointwise2 csub;
  tf_multiply := pointwise2 cmul;
  tf_identity := λ x _, x;
  tf_transpose := ntranspose;
  tf_concat := nconcat;
  tf_getitem := ngetitem;
  tf_nn_relu := nrelu;
  tf_get_variable := nget_variable;
  tf_layers_batch_normalization := nbatch_normalization;
  tf_layers_conv2d := nconv2d;
  circular_pad := ncircular_pad;
  kspace_mask := nkspace_mask;
  model_forward := sense_forward nm;
  model_transpose := sense_transpose nm;
  complex_to_channels := ncomplex_to_channels;
  channels_to_complex := nchannels_to_complex
|}.

(** A 'same'-padding convolution with a periodic instead of a zero
    boundary: the reference the circular convolution is compared with. *)
Definition conv2d_periodic (layer : string) (x : ntensor) (filters k : Z)
    (use_bias : bool) (data_format : string) : ntensor :=
  {| nshape := conv2d_same_shape (nshape x) filters data_format;
     ndata := conv_sum layer x k ((k - 1) / 2) use_bias data_format wrapped |}.

End Tensors.
Arguments ntensor C : clear implicits.
Arguments numerics C : clear implicits.
End Numeric.

(** ** Gaussian integers

    Complex numbers with integer parts: the exact scalars the model is run
    on. *)

Module Gauss.

Record gauss := { re : Z; im : Z }.

Definition zero : gauss := {| re := 0; im := 0 |}.
Definition one : gauss := {| re := 1; im := 0 |}.
Definition add (a b : gauss) : gauss :=
  {| re := re a + re b; im := im a + im b |}.
Definition sub (a b : gauss) : gauss :=
  {| re := re a - re b; im := im a - im b |}.
Definition opp (a : gauss) : gauss := {| re := - re a; im := - im a |}.
Definition mul (a b : gauss) : gauss :=
  {| re := re a * re b - im a * im b; im := re a * im b + im a * re b |}.
Definition conj (a : gauss) : gauss := {| re := re a; im := - im a |}.
Definition of_int (z : Z) : gauss := {| re := z; im := 0 |}.

#[global] Instance scalar : Scalar gauss :=
  {| c0 := zero; c1 := one; cadd := add; cmul := mul; csub := sub; copp := opp |}.

Abbreviation tensor := (Numeric.ntensor gauss).

(** Modelled from the spec: the sensing operator of [utils.tfmri] is not
    part of the sources.  "forward: expands a combined image into per-coil
    k-space via coil weighting then frequency transform"; "adjoint: inverse
    frequency transform followed by conjugate-weighted coil combination (sum
    over coil axis)"; without sensitivity maps both are the plain transform.
    This is the operator of a spatial grid with a single point, where the
    Fourier transform is the identity: k-space and sensitivity maps are
    indexed [batch; z; y; coil] and the image [batch; z; y; 0]. *)
Definition pixel_forward (x : tensor) (sensemap : option tensor) : tensor :=
  match sensemap with
  | None => x
  | Some s =>
      {| Numeric.nshape := Numeric.nshape s;
         Numeric.ndata := λ i,
           mul (Numeric.ndata s i) (Numeric.ndata x (set_dim i 3 0)) |}
  end.

Definition pixel_transpose (k : tensor) (sensemap : option tensor) : tensor :=
  match sensemap with
  | None => k
  | Some s =>
      {| Numeric.nshape := set_dim (Numeric.nshape k) 3 1;
         Numeric.ndata := λ i,
           Numeric.sum_upto (Z.to_nat (py_index (Numeric.nshape s) 3))
             (λ c, mul (conj (Numeric.ndata s (set_dim i 3 (Z.of_nat c))))
                       (Numeric.ndata k (set_dim i 3 (Z.of_nat c)))) |}
  end.

(** The numerics over Gaussian integers, for a store [params] of learned
    parameters; batch normalization applies the stored scale and shift of
    the layer. *)
Definition numerics (params : string → list Z → gauss) : Numeric.numerics gauss := {|
  Numeric.relu_scalar := λ x, if 0 <? re x then x else zero;
  Numeric.is_nonzero := λ x, negb ((re x =? 0) && (im x =? 0));
  Numeric.real_part := λ x, of_int (re x);
  Numeric.imag_part := λ x, of_int (im x);
  Numeric.make_complex := λ a b, {| re := re a; im := re b |};
  Numeric.variable_value := params;
  Numeric.batch_norm_coeff := λ layer _ _ ch,
    (params (layer +:+ "/gamma") [ch], params (layer +:+ "/beta") [ch]);
  Numeric.sense_forward := pixel_forward;
  Numeric.sense_transpose := pixel_transpose
|}.

Definition ops (params : string → list Z → gauss) : TensorOps tensor :=
  Numeric.ops (numerics params).

(** A parameter store in its initial state: the step size [t] is -2, every
    other entry 1. *)
Definition initial_params (name : string) (i : list Z) : gauss :=
  if String.eqb (String.substring (String.length name - 2) 2 name) "/t"
  then of_int (-2) else one.

(** Data of the examples: a k-space of two coils on a grid of one point,
    measured as 1 by the first coil and not by the second; sensitivity maps
    that are 1 for both coils; a mask that samples the first coil only. *)
Definition first_coil (v : gauss) : tensor :=
  {| Numeric.nshape := [1; 1; 1; 2];
     Numeric.ndata := λ i, if py_index i 3 =? 0 then v else zero |}.

Definition all_coils (v : gauss) : tensor :=
  {| Numeric.nshape := [1; 1; 1; 2]; Numeric.ndata := λ _, v |}.

Definition zero_steps : ista_args := {|
  num_grad_steps := 0;
  resblock_num_features := 128;
  resblock_num_blocks := 3;
  resblock_share := false;
  training := true;
  scope := "MRI";
  hard_projection := true;
  do_dense := false;
  batchnorm := true;
  circular := true;
  fix_update := false
|}.

(** A 3 by 3 image of one channel with entries 0 .. 8, channels last. *)
Definition ramp : tensor :=
  {| Numeric.nshape := [1; 3; 3; 1];
     Numeric.ndata := λ i, of_int (3 * py_index i 1 + py_index i 2) |}.

End Gauss.

(** ** Further notions for the properties of the whole network *)

(** Number of layers with the default name [base] created so far in a
    scope with the counters [c]. *)
Definition layers_created (c : gmap string nat) (base : string) : nat :=
  default 0%nat (c !! base).

(** TensorFlow's shape rules for [tf.transpose] and [tf.concat]. *)
Class LayoutLaws (T : Type) `{TensorOps T} : Prop := {
  shape_transpose : ∀ x perm,
    tf_shape (tf_transpose x perm) = transpose_shape (tf_shape x) perm;
  shape_concat : ∀ a b axis,
    tf_shape (tf_concat a b axis) = concat_shape (tf_shape a) (tf_shape b) axis
}.

(** Every operation of the graph [g] satisfies [P]. *)
Definition every_node (P : graph → Prop) (g : graph) : Prop :=
  ∀ n, n ∈ Graph.nodes g → P n.

(** What [unroll_ista] called with the arguments [a] makes of each kind of
    operation: the convolutions are 'same' convolutions of kernel size 3 (1
    for the projections of the shortcuts) in the layout channels first, with
    a bias when batch normalisation is off; the batch normalisations exist
    only with [batchnorm], along the axis 1 and with the [training] flag of
    the call; circular pads and crops only with [circular], the pads on the
    axes 2 and 3 by the amount of the prior network; a variable only without
    [fix_update], initialised to -2; the constants -2 (with [fix_update]) and
    1 (with [hard_projection]); the two changes of layout; concatenations
    only with [do_dense], along the axis 1; no placeholder. *)
Definition layer_conforms (a : ista_args) (n : graph) : Prop :=
  match n with
  | Conv2D _ _ _ kernel_size padding use_bias data_format =>
      (kernel_size = 3 ∨ kernel_size = 1) ∧ padding = "same"
      ∧ use_bias = negb (batchnorm a) ∧ data_format = "channels_first"
  | BatchNormalization _ _ axis tr =>
      batchnorm a = true ∧ axis = 1 ∧ tr = training a
  | CircularPad _ pad axis =>
      circular a = true ∧ (axis = 2 ∨ axis = 3)
      ∧ pad = py_int ((inject_Z ((resblock_num_blocks a * 2 + 1) * (3 - 1)) + 0.5) / 2)%Q
  | GetItem _ _ => circular a = true
  | GetVariable _ init => fix_update a = false ∧ init = -2
  | Constant v =>
      (v = -2 ∧ fix_update a = true) ∨ (v = 1 ∧ hard_projection a = true)
  | Transpose _ perm => perm = [0; 3; 1; 2] ∨ perm = [0; 2; 3; 1]
  | Concat _ _ axis => do_dense a = true ∧ axis = 1
  | Placeholder _ _ => False
  | _ => True
  end.

(** The operations of the graphs handed to [unroll_ista]. *)
Definition input_nodes (ks_input : graph) (sensemap mask_output mask : option graph)
    : list graph :=
  (Graph.nodes ks_input ++ from_option Graph.nodes [] sensemap
   ++ from_option Graph.nodes [] mask_output
   ++ from_option Graph.nodes [] mask)%list.

(** The loop variables hold graphs of conforming operations, and a dense
    accumulator only with [do_dense]. *)
Definition state_ok (a : ista_args) (old : graph → Prop)
    (st : ista_state graph) : Prop :=
  let ok n := layer_conforms a n ∨ old n in
  every_node ok (ks_k st) ∧ every_node ok (im_k st)
  ∧ (∀ d, im_dense st = Some d → every_node ok d ∧ do_dense a = true)
  ∧ ∀ key g, summary_iter st !! key = Some g → every_node ok g.

(** Arguments of the examples: the defaults with shared weights, with one
    iteration and no final projection, and with a negative number of
    iterations. *)
Definition shared_weights : ista_args := {|
  num_grad_steps := 4;
  resblock_num_features := 128;
  resblock_num_blocks := 3;
  resblock_share := true;
  training := true;
  scope := "MRI";
  hard_projection := true;
  do_dense := false;
  batchnorm := true;
  circular := true;
  fix_update := false
|}.

Definition soft_output : ista_args := {|
  num_grad_steps := 1;
  resblock_num_features := 128;
  resblock_num_blocks := 3;
  resblock_share := false;
  training := true;
  scope := "MRI";
  hard_projection := false;
  do_dense := false;
  batchnorm := true;
  circular := true;
  fix_update := false
|}.

Definition negative_steps : ista_args := {|
  num_grad_steps := -1;
  resblock_num_features := 128;
  resblock_num_blocks := 3;
  resblock_share := false;
  training := true;
  scope := "MRI";
  hard_projection := true;
  do_dense := false;
  batchnorm := true;
  circular := true;
  fix_update := false
|}.

(** ** Calls of [unroll_ista]

    [model.py] has no [raise] statement and checks none of its arguments:
    a call fails only where a call of TensorFlow fails.  Two such failures
    depend on the configuration, and both are [ValueError]s.

    - TensorFlow rejects the arguments of a layer.  Which arguments it
      rejects differs between its versions (some refuse a convolution of
      zero filters), so the check is a parameter, [rejects].
    - The variable store refuses a variable.  A layer keeps its variables
      under its name, and a variable is identified by its full name.  Inside
      [tf.variable_scope(..., reuse=tf.AUTO_REUSE)], which is the scope of an
      iteration with [resblock_share], a layer of a name that exists takes
      over the variables of that name, and their shapes have to agree.
      Inside [tf.variable_scope(..., reuse=False)] the setting of the caller
      is inherited, taken to be unset: a second layer of a name that exists
      is refused.

    The other operations (arithmetic, transpositions, slices,
    concatenations, the sensing operators) are taken to accept their
    arguments. *)

(** Equality of graphs is decidable. *)
#[global] Instance graph_eq_dec : EqDecision graph.
Proof.
  unfold EqDecision, Decision. fix go 1. intros a b.
  assert (Hs : ∀ x y : string, {x = y} + {x ≠ y}) by apply string_dec.
  assert (Hz : ∀ x y : Z, {x = y} + {x ≠ y}) by apply Z.eq_dec.
  assert (Hb : ∀ x y : bool, {x = y} + {x ≠ y}) by apply Bool.bool_dec.
  assert (Hl : ∀ x y : list Z, {x = y} + {x ≠ y})
    by (intros x y; decide equality).
  assert (Hsl : ∀ x y : slice_spec, {x = y} + {x ≠ y})
    by (intros x y; do 3 decide equality).
  destruct a, b; try (right; discriminate).
  all: do 2 decide equality.
Defined.

Section Calls.
Variables forward_shape transpose_shape' : list Z → option (list Z) → list Z.
Variable rejects : graph → bool.

(** The variable an operation asks the variable store for, by the name of
    its layer: the kernel of a convolution, of the shape
    [[kernel_size, kernel_size, channels of the input, filters]]; the
    statistics of a batch normalisation, one entry per channel; the
    variable of [tf.get_variable], here always of the shape [[1]]. *)
Definition variable_of (n : graph) : option (string * list Z) :=
  match n with
  | GetVariable name _ => Some (name, [1])
  | BatchNormalization layer x axis _ =>
      Some (layer,
            [py_index (Graph.shape forward_shape transpose_shape' x) axis])
  | Conv2D layer x filters kernel_size _ _ data_format =>
      let axis_c := if String.eqb data_format "channels_last" then 3 else 1 in
      Some (layer,
            [kernel_size; kernel_size;
             py_index (Graph.shape forward_shape transpose_shape' x) axis_c;
             filters])
  | _ => None
  end.

(** The layers among the operations [gs], each with its variable. *)
Definition requests (gs : list graph) : list (graph * (string * list Z)) :=
  flat_map (λ n, match variable_of n with
                 | Some v => [(n, v)]
                 | None => []
                 end) gs.

(** The variable store refuses the layer [r] beside the layer [r']: they
    have the same name, and with AUTO_REUSE ([reuse]) variables of two
    shapes, without it they are two layers. *)
Definition clashes (reuse : bool) (r r' : graph * (string * list Z)) : bool :=
  let '(n, (name, s)) := r in
  let '(n', (name', s')) := r' in
  String.eqb name name'
  && (if reuse then negb (bool_decide (s = s'))
      else negb (bool_decide (n = n'))).

(** The operations of the three results of [unroll_ista]; every layer the
    call creates is among them. *)
Definition result_nodes (r : graph * graph * gmap string graph) : list graph :=
  let '(im_k, ks_k, summary_iter) := r in
  (Graph.nodes im_k ++ Graph.nodes ks_k
   ++ flat_map (λ e, Graph.nodes (snd e)) (map_to_list summary_iter))%list.

(** A call of [unroll_ista] at the top level of a graph whose variables are
    those of the graphs handed to the call.  The layers the call creates
    are those of the results that are not operations of these graphs. *)
Definition call_unroll_ista (ks_input : graph) (sensemap : option graph)
    (a : ista_args) (mask_output mask : option graph)
    : outcome (graph * graph * gmap string graph) :=
  let r := run (unroll_ista (H := Graph.ops forward_shape transpose_shape')
                  ks_input sensemap a mask_output mask) in
  let layers := requests (result_nodes r) in
  let given := input_nodes ks_input sensemap mask_output mask in
  let created :=
    List.filter (λ l, negb (bool_decide (fst l ∈ given))) layers in
  if existsb (λ l, rejects (fst l)) created
     || existsb (λ l, existsb (clashes (resblock_share a) l) layers) created
  then Raises "ValueError"
  else Returns r.
End Calls.

(** The arguments [a] with another [resblock_num_features]. *)
Definition with_features (a : ista_args) (num_features : Z) : ista_args := {|
  num_grad_steps := num_grad_steps a;
  resblock_num_features := num_features;
  resblock_num_blocks := resblock_num_blocks a;
  resblock_share := resblock_share a;
  training := training a;
  scope := scope a;
  hard_projection := hard_projection a;
  do_dense := do_dense a;
  batchnorm := batchnorm a;
  circular := circular a;
  fix_update := fix_update a
|}.

(** The strictest check of the arguments of a layer among the versions of
    TensorFlow: a convolution needs at least one filter and a kernel size of
    at least one. *)
Definition below_one (n : graph) : bool :=
  match n with
  | Conv2D _ _ filters kernel_size _ _ _ => (filters <? 1) || (kernel_size <? 1)
  | _ => false
  end.

(** Arguments of the examples of calls: two iterations of one block of four
    features with shared weights, with and without dense connections; one
    iteration of one block without features. *)
Definition shared_dense : ista_args := {|
  num_grad_steps := 2;
  resblock_num_features := 4;
  resblock_num_blocks := 1;
  resblock_share := true;
  training := true;
  scope := "MRI";
  hard_projection := true;
  do_dense := true;
  batchnorm := true;
  circular := true;
  fix_update := false
|}.

Definition shared_two_steps : ista_args := {|
  num_grad_steps := 2;
  resblock_num_features := 4;
  resblock_num_blocks := 1;
  resblock_share := true;
  training := true;
  scope := "MRI";
  hard_projection := true;
  do_dense := false;
  batchnorm := true;
  circular := true;
  fix_update := false
|}.

Definition no_features : ista_args := {|
  num_grad_steps := 1;
  resblock_num_features := 0;
  resblock_num_blocks := 1;
  resblock_share := false;
  training := true;
  scope := "MRI";
  hard_projection := true;
  do_dense := false;
  batchnorm := true;
  circular := true;
  fix_update := false
|}.

(** * Lemmas and theorems *)

(** ** Arithmetic of the padding formulas *)

Lemma py_int_plus_half (n : Z) :
  py_int ((inject_Z n + 0.5) / 2)%Q = Z.quot (2 * n + 1) 4.
Proof.
  unfold py_int. cbn. change (Z.pos (1 * 10 * 2)) with 20.
  Z.to_euclidean_division_equations. lia.
Qed.

Lemma py_floor_plus_half (n : Z) :
  py_floor ((inject_Z n + 0.5) / 2)%Q = n / 2.
Proof.
  unfold py_floor, Qfloor. cbn. change (Z.pos (1 * 10 * 2)) with 20.
  Z.to_euclidean_division_equations. lia.
Qed.

Lemma py_int_minus_half (n : Z) :
  py_int ((inject_Z n - 0.5) / 2)%Q = Z.quot (2 * n - 1) 4.
Proof.
  unfold py_int. cbn. change (Z.pos (1 * 10 * 2)) with 20.
  Z.to_euclidean_division_equations. lia.
Qed.

Lemma py_floor_minus_half (n : Z) :
  py_floor ((inject_Z n - 0.5) / 2)%Q = (n - 1) / 2.
Proof.
  unfold py_floor, Qfloor. cbn. change (Z.pos (1 * 10 * 2)) with 20.
  Z.to_euclidean_division_equations. lia.
Qed.

(** For a non-negative integer, truncation and floor agree. *)
Lemma py_int_floor_plus_half (n : Z) :
  0 ≤ n → py_int ((inject_Z n + 0.5) / 2)%Q = py_floor ((inject_Z n + 0.5) / 2)%Q.
Proof.
  intros Hn. rewrite py_int_plus_half, py_floor_plus_half.
  rewrite Z.quot_div_nonneg by lia.
  Z.to_euclidean_division_equations. lia.
Qed.

(** ** Names *)

Lemma fmt_02d_parse (n : nat) :
  option_map Nat.of_uint (NilEmpty.uint_of_string (fmt_02d n)) = Some n.
Proof.
  unfold fmt_02d, str_of_nat.
  destruct (_ <? _)%nat.
  - simpl. rewrite NilEmpty.usu. cbn.
    rewrite <- (DecimalNat.Unsigned.of_to n) at 2. reflexivity.
  - rewrite NilEmpty.usu. cbn. now rewrite DecimalNat.Unsigned.of_to.
Qed.

Lemma fmt_02d_inj (i j : nat) : fmt_02d i = fmt_02d j → i = j.
Proof.
  intros E. pose proof (fmt_02d_parse i) as Hi. rewrite E, fmt_02d_parse in Hi.
  congruence.
Qed.

Lemma iter_name_inj (i j : nat) : iter_name i = iter_name j → i = j.
Proof.
  unfold iter_name. intros E. apply String.app_inj in E.
  now apply fmt_02d_inj.
Qed.

Lemma string_app_length (s t : string) :
  String.length (s +:+ t) = (String.length s + String.length t)%nat.
Proof. induction s as [|a s IH]; simpl; [done | by rewrite <- IH]. Qed.

Lemma string_app_inj_r (s1 s2 t : string) : s1 +:+ t = s2 +:+ t → s1 = s2.
Proof.
  revert s2. induction s1 as [|a s1 IH]; intros [|b s2] E; try done.
  - apply (f_equal String.length) in E.
    rewrite !string_app_length in E. simpl in E. lia.
  - apply (f_equal String.length) in E.
    rewrite !string_app_length in E. simpl in E. lia.
  - change (String a (s1 +:+ t) = String b (s2 +:+ t)) in E.
    injection E as -> E. f_equal. by apply IH.
Qed.

Lemma scope_join_inj (path s1 s2 : string) :
  scope_join path s1 = scope_join path s2 → s1 = s2.
Proof.
  unfold scope_join. destruct (String.eqb path ""); [done |].
  intros E. apply String.app_inj in E. by apply String.app_inj in E.
Qed.

Lemma scope_join_nonempty (path s : string) : s ≠ "" → scope_join path s ≠ "".
Proof.
  unfold scope_join. destruct (String.eqb_spec path "") as [-> | Hp]; [done |].
  intros _. destruct path; [done |]. discriminate.
Qed.

Lemma scope_join_inj_l (p1 p2 s : string) :
  p1 ≠ "" → p2 ≠ "" → scope_join p1 s = scope_join p2 s → p1 = p2.
Proof.
  unfold scope_join. intros H1 H2.
  destruct (String.eqb_spec p1 ""); [done |].
  destruct (String.eqb_spec p2 ""); [done |].
  apply string_app_inj_r.
Qed.

(** ** The model at small inputs *)

Example fmt_02d_values :
  fmt_02d 3 = "03" ∧ fmt_02d 12 = "12" ∧ fmt_02d 123 = "123".
Proof. repeat split; reflexivity. Qed.

Example t_name_values :
  t_name "" default_args 3 = "MRI/iter_03/update/t"
  ∧ t_name "" Gauss.zero_steps 11 = "MRI/iter_11/update/t"
  ∧ Gauss.initial_params (t_name "" default_args 3) [0] = Gauss.of_int (-2).
Proof. repeat split; reflexivity. Qed.

Example layer_name_values :
  run (variable_scope "prox" (
         a ← layer_name "conv2d"; b ← layer_name "conv2d";
         c ← layer_name "batch_normalization"; mret [a; b; c]))
  = ["prox/conv2d"; "prox/conv2d_1"; "prox/batch_normalization"].
Proof. vm_compute. reflexivity. Qed.

Example pad_values :
  py_int ((inject_Z 3 - 0.5) / 2)%Q = 1
  ∧ py_int ((inject_Z (2 * (3 - 1)) + 0.5) / 2)%Q = 2
  ∧ py_int ((inject_Z ((3 * 2 + 1) * (3 - 1)) + 0.5) / 2)%Q = 7
  ∧ py_int ((inject_Z (-1) + 0.5) / 2)%Q = 0
  ∧ py_floor ((inject_Z (-1) + 0.5) / 2)%Q = -1.
Proof. repeat split; reflexivity. Qed.

Example conv2d_graph :
  let ops := Graph.ops (λ s _, s) (λ s _, s) in
  run (_conv2d (Placeholder "x" [1; 8; 8; 2]) 4 3 "channels_last" true false)
  = GetItem
      (Conv2D "conv2d"
         (CircularPad (CircularPad (Placeholder "x" [1; 8; 8; 2]) 1 1) 1 2)
         4 3 "same" false "channels_last")
      [None; Some (1, 9); Some (1, 9); None].
Proof. vm_compute. reflexivity. Qed.

(** ** Broadcasting of shapes *)

Lemma broadcast_rev_nil_r (a : list Z) : broadcast_rev a [] = a.
Proof. by destruct a. Qed.

Lemma broadcast_rev_idem (a : list Z) : broadcast_rev a a = a.
Proof.
  induction a as [|x a IH]; simpl; [done |].
  rewrite IH. by destruct (x =? 1).
Qed.

Lemma broadcast_rev_absorb (a b : list Z) :
  broadcast_rev a (broadcast_rev a b) = broadcast_rev a b.
Proof.
  revert b. induction a as [|x a IH]; intros [|y b]; simpl; try done.
  - rewrite broadcast_rev_idem. by destruct (x =? 1).
  - rewrite IH. by destruct (x =? 1).
Qed.

Lemma broadcast_shape_nil_l (a : list Z) : broadcast_shape [] a = a.
Proof. unfold broadcast_shape. simpl. apply rev_involutive. Qed.

Lemma broadcast_shape_nil_r (a : list Z) : broadcast_shape a [] = a.
Proof.
  unfold broadcast_shape. simpl. rewrite broadcast_rev_nil_r.
  apply rev_involutive.
Qed.

Lemma broadcast_shape_idem (a : list Z) : broadcast_shape a a = a.
Proof. unfold broadcast_shape. rewrite broadcast_rev_idem. apply rev_involutive. Qed.

Lemma broadcast_shape_absorb (a b : list Z) :
  broadcast_shape a (broadcast_shape a b) = broadcast_shape a b.
Proof.
  unfold broadcast_shape. rewrite rev_involutive. by rewrite broadcast_rev_absorb.
Qed.

(** ** The graph-building monad *)

Ltac build_unfold :=
  unfold mbind, mret, build_bind, build_ret, variable_scope, name_scope in *.

Lemma for_each_snoc {S : Type} (l : list nat) (i : nat)
    (body : nat → S → Build S) (s : S) (path : string) (c : gmap string nat) :
  for_each (l ++ [i]) body s path c
  = let '(s', c') := for_each l body s path c in body i s' path c'.
Proof.
  revert s c. induction l as [|j l IH]; intros s c; simpl.
  - build_unfold. by destruct (body i s path c).
  - build_unfold. destruct (body j s path c) as [s1 c1]. apply IH.
Qed.

(** [unroll_ista] in terms of the names above. *)
Lemma unroll_ista_run {T : Type} `{TensorOps T} (ks_input : T)
    (sensemap : option T) (a : ista_args) (mask_output mask : option T)
    (path : string) (c : gmap string nat) :
  let st := state_after (Z.to_nat (num_grad_steps a)) ks_input sensemap a mask path in
  let predicted := model_forward (im_k st) sensemap in
  fst (unroll_ista ks_input sensemap a mask_output mask path c)
  = if hard_projection a
    then
      let ks := projected ks_input mask mask_output predicted in
      (tf_identity (model_transpose ks sensemap) "output_image",
       tf_identity ks "output_kspace", summary_iter st)
    else
      (tf_identity (im_k st) "output_image",
       tf_identity predicted "output_kspace", summary_iter st).
Proof.
  unfold unroll_ista, state_after, projected, anchor_image, masked_input,
    apply_mask, used_mask, py_range.
  build_unfold. simpl.
  destruct (for_each _ _ _ _ _) as [st c'] eqn:E. simpl.
  destruct (hard_projection a); [destruct mask_output |]; reflexivity.
Qed.

(** ** Data consistency, by value *)

Section Values.
Context {T C : Type} `{TensorOps T} `{Scalar C} `{Valued T C}.
Context {SL : ScalarLaws C} {VL : ValueLaws T C}.

Add Ring scalars : scalar_ring.

Lemma of_Z_one : of_Z 1 = c1.
Proof. reflexivity. Qed.

Lemma mask_product_shape (k m : T) :
  tf_shape (apply_mask (apply_mask k m) m) = tf_shape (apply_mask k m).
Proof.
  unfold apply_mask. rewrite !shape_multiply. apply broadcast_shape_absorb.
Qed.

(** Where the mask is one the masked k-space is the measured one, where it
    is zero the masked k-space is zero. *)
Lemma masked_value_one (k m : T) (i : list Z) :
  value_at m i = c1 → value_at (apply_mask k m) i = value_at k i.
Proof. intros E. unfold apply_mask. rewrite value_multiply, E. ring. Qed.

Lemma masked_value_zero (k m : T) (i : list Z) :
  value_at m i = c0 → value_at (apply_mask k m) i = c0.
Proof. intros E. unfold apply_mask. rewrite value_multiply, E. ring. Qed.

(** C7 (amended): masking is idempotent for every k-space and every mask
    whose entries are all 0 or 1: [apply_mask (apply_mask k m) m] equals
    [apply_mask k m]; in particular the masking of every iteration leaves
    the masked input [ks_0] of the solver as it is when the mask in use is
    such a mask. *)
Theorem mask_idempotent_binary (k m : T) :
  (∀ i, value_at m i = c0 ∨ value_at m i = c1) →
  apply_mask (apply_mask k m) m = apply_mask k m
  ∧ ∀ mask,
      used_mask k mask = m →
      apply_mask (masked_input k mask) (used_mask k mask) = masked_input k mask.
Proof.
  intros Hm.
  assert (E : apply_mask (apply_mask k m) m = apply_mask k m).
  { apply tensor_ext; [apply mask_product_shape |].
    intros i. unfold apply_mask. rewrite !value_multiply.
    destruct (Hm i) as [-> | ->]; ring. }
  split; [exact E |].
  intros mask Hmask. unfold masked_input. rewrite Hmask. exact E.
Qed.


Lemma projected_value (ks_input : T) (mask mask_output : option T)
    (predicted : T) (i : list Z) :
  let m := value_at (used_mask ks_input mask) i in
  value_at (projected ks_input mask mask_output predicted) i
  = cmul (cadd (cmul m (cmul m (value_at ks_input i)))
               (cmul (csub c1 m) (value_at predicted i)))
         (output_scale mask_output i).
Proof.
  unfold projected, masked_input, apply_mask, output_scale.
  destruct mask_output; simpl;
    rewrite ?value_multiply, value_add, !value_multiply, value_subtract,
      value_constant, of_Z_one; ring.
Qed.

(** C1: with [hard_projection] the returned k-space equals, where the mask
    is 1, the measured input k-space (there also the masked one) scaled by
    [mask_output], and where the mask is 0 the k-space predicted from the
    last image estimate scaled by [mask_output]; the returned image is the
    adjoint transform of the returned k-space. *)
Theorem hard_projection_exact (ks_input : T) (sensemap : option T)
    (a : ista_args) (mask_output mask : option T) (path : string)
    (c : gmap string nat) :
  hard_projection a = true →
  let m := used_mask ks_input mask in
  let st := state_after (Z.to_nat (num_grad_steps a)) ks_input sensemap a mask path in
  let predicted := model_forward (im_k st) sensemap in
  let '(im_out, ks_out, _) :=
    fst (unroll_ista ks_input sensemap a mask_output mask path c) in
  (∀ i, value_at m i = c1 →
        value_at ks_out i = cmul (value_at ks_input i) (output_scale mask_output i)
        ∧ value_at (masked_input ks_input mask) i = value_at ks_input i)
  ∧ (∀ i, value_at m i = c0 →
          value_at ks_out i
          = cmul (value_at predicted i) (output_scale mask_output i))
  ∧ im_out = model_transpose ks_out sensemap.
Proof.
  intros Hhard m st predicted.
  rewrite unroll_ista_run, Hhard. cbv zeta. rewrite !identity_value.
  fold st. fold predicted.
  split; [| split; [| reflexivity]].
  - intros i Hi. split.
    + rewrite projected_value. fold m. rewrite Hi. ring.
    + by apply masked_value_one.
  - intros i Hi. rewrite projected_value. fold m. rewrite Hi. ring.
Qed.

(** C3 (amended): with [num_grad_steps = 0] and [hard_projection] the
    returned k-space is the hard projection of the forward transform of the
    initial image estimate, and the returned image is its adjoint transform;
    they are the masked input k-space and the initial adjoint
    reconstruction when the mask has only entries 0 and 1, [mask_output]
    is 1 or absent, and the forward transform of the initial image has the
    shape of the k-space and is zero wherever the mask is zero. *)
Theorem zero_steps_projection (ks_input : T) (sensemap : option T)
    (a : ista_args) (mask_output mask : option T) (path : string)
    (c : gmap string nat) :
  num_grad_steps a = 0 →
  hard_projection a = true →
  let m := used_mask ks_input mask in
  let ks_0 := masked_input ks_input mask in
  let im_0 := model_transpose ks_0 sensemap in
  let '(im_out, ks_out, _) :=
    fst (unroll_ista ks_input sensemap a mask_output mask path c) in
  ks_out = projected ks_input mask mask_output (model_forward im_0 sensemap)
  ∧ im_out = model_transpose ks_out sensemap
  ∧ ((∀ i, value_at m i = c0 ∨ value_at m i = c1) →
     mask_output = None ∨ mask_output = Some (tf_constant 1) →
     tf_shape (model_forward im_0 sensemap) = tf_shape ks_0 →
     (∀ i, value_at m i = c0 → value_at (model_forward im_0 sensemap) i = c0) →
     ks_out = ks_0 ∧ im_out = im_0).
Proof.
  intros Hsteps Hhard m ks_0 im_0.
  rewrite unroll_ista_run, Hhard, Hsteps. cbv zeta.
  unfold state_after. simpl. build_unfold. simpl.
  unfold anchor_image. rewrite !identity_value. fold ks_0. fold im_0.
  split; [reflexivity | split; [reflexivity |]].
  intros Hm Hmo Hshape Hzero.
  assert (E : projected ks_input mask mask_output (model_forward im_0 sensemap)
              = ks_0).
  { apply tensor_ext.
    - assert (Hs : tf_shape (projected ks_input mask None
                               (model_forward im_0 sensemap)) = tf_shape ks_0).
      { unfold projected. fold m. fold ks_0.
        rewrite shape_plus, !shape_multiply, shape_subtract, shape_constant,
          Hshape, broadcast_shape_nil_l.
        unfold ks_0, masked_input, apply_mask. fold m.
        rewrite !shape_multiply, !broadcast_shape_absorb.
        apply broadcast_shape_idem. }
      destruct Hmo as [-> | ->]; [exact Hs |].
      unfold projected in *. fold m in Hs |- *. fold ks_0 in Hs |- *.
      rewrite shape_multiply, Hs, shape_constant.
      apply broadcast_shape_nil_r.
    - intros i. rewrite projected_value. fold m. fold ks_0.
      assert (Hscale : output_scale mask_output i = c1).
      { destruct Hmo as [-> | ->]; simpl; [done |].
        by rewrite value_constant. }
      rewrite Hscale. unfold ks_0, masked_input, apply_mask. fold m.
      rewrite value_multiply.
      destruct (Hm i) as [E0 | E1].
      + rewrite (Hzero i E0), E0. ring.
      + rewrite E1. ring. }
  by rewrite E.
Qed.

End Values.

(** ** The laws hold for tensors of exact numbers *)

Lemma gauss_ring :
  ring_theory Gauss.zero Gauss.one Gauss.add Gauss.mul Gauss.sub Gauss.opp eq.
Proof.
  constructor; intros; repeat match goal with x : Gauss.gauss |- _ => destruct x end;
    unfold Gauss.add, Gauss.mul, Gauss.sub, Gauss.opp, Gauss.zero, Gauss.one;
    simpl; f_equal; ring.
Qed.

#[global] Instance gauss_scalar_laws : ScalarLaws Gauss.gauss.
Proof. constructor. exact gauss_ring. Qed.

#[global] Instance numeric_value_laws {C : Type} `{Scalar C}
    (nm : Numeric.numerics C) :
  @ValueLaws (Numeric.ntensor C) C (Numeric.ops nm) _ _.
Proof.
  constructor; try reflexivity.
  intros [sa da] [sb db]; simpl. intros -> Hd. f_equal.
  by apply functional_extensionality.
Qed.

#[global] Instance numeric_shape_laws {C : Type} `{Scalar C}
    (nm : Numeric.numerics C) :
  @ShapeLaws (Numeric.ntensor C) (Numeric.ops nm).
Proof. constructor; reflexivity. Qed.

(** Witness of C7: a mask that samples the first coil only. *)
Lemma mask_idempotent_binary_witness :
  let ops := Gauss.ops Gauss.initial_params in
  let k := Gauss.all_coils {| Gauss.re := 3; Gauss.im := 4 |} in
  let m := Gauss.first_coil Gauss.one in
  (∀ i, value_at m i = c0 ∨ value_at m i = c1)
  ∧ apply_mask (apply_mask k m) m = apply_mask k m.
Proof.
  intros ops k m.
  assert (Hm : ∀ i, value_at m i = c0 ∨ value_at m i = c1).
  { intros i. simpl. destruct (py_index i 3 =? 0); auto. }
  split; [exact Hm |].
  exact (proj1 (mask_idempotent_binary (H := ops) k m Hm)).
Defined.

(** C7 as stated, for any mask, fails: a mask of value 2 doubles the
    k-space at every application. *)
Lemma mask_idempotent_counterexample :
  let ops := Gauss.ops Gauss.initial_params in
  let k := tf_constant 1 in
  let m := tf_constant 2 in
  apply_mask (apply_mask k m) m ≠ apply_mask k m.
Proof.
  intros ops k m E.
  apply (f_equal (λ t, Numeric.ndata t [])) in E. vm_compute in E. discriminate.
Qed.

(** C3 as stated fails with sensitivity maps: two coils on a grid of one
    point, both with sensitivity 1, the first measured as 1 and the second
    not sampled.  The initial image is 1; its forward transform predicts 1 for
    the second coil, which the projection keeps, so the returned image is 2
    and the returned k-space is not the masked input. *)
Lemma zero_steps_counterexample :
  let ops := Gauss.ops Gauss.initial_params in
  let ks_input := Gauss.first_coil Gauss.one in
  let sensemap := Some (Gauss.all_coils Gauss.one) in
  let im_0 := model_transpose (masked_input ks_input None) sensemap in
  let '(im_out, ks_out, _) :=
    run (unroll_ista ks_input sensemap Gauss.zero_steps (Some (tf_constant 1)) None) in
  value_at im_0 [0; 0; 0; 0] = Gauss.of_int 1
  ∧ value_at im_out [0; 0; 0; 0] = Gauss.of_int 2
  ∧ im_out ≠ im_0
  ∧ ks_out ≠ masked_input ks_input None.
Proof.
  intros ops ks_input sensemap im_0. unfold run.
  rewrite unroll_ista_run. change (hard_projection Gauss.zero_steps) with true.
  cbv zeta iota beta.
  split; [by vm_compute | split; [by vm_compute | split]].
  - intros E. apply (f_equal (λ t, Numeric.ndata t [0; 0; 0; 0])) in E.
    vm_compute in E. discriminate.
  - intros E. apply (f_equal (λ t, Numeric.ndata t [0; 0; 0; 1])) in E.
    vm_compute in E. discriminate.
Qed.

(** ** The loop of [unroll_ista] *)

Section Loop.
Context {T : Type} `{TensorOps T}.

Lemma iteration_counters (a : ista_args) (sensemap : option T) (mask im_0 : T)
    (i : nat) (st : ista_state T) (path : string) (c : gmap string nat) :
  snd (iteration a sensemap mask im_0 i st path c) = c.
Proof. reflexivity. Qed.

Lemma for_each_iteration_counters (a : ista_args) (sensemap : option T)
    (mask im_0 : T) (l : list nat) (st : ista_state T) (path : string)
    (c : gmap string nat) :
  snd (for_each l (iteration a sensemap mask im_0) st path c) = c.
Proof.
  revert st. induction l as [|i l IH]; intros st; simpl; [done |].
  build_unfold. simpl. apply IH.
Qed.

(** One more iteration of the call. *)
Lemma state_after_S (n : nat) (ks_input : T) (sensemap : option T)
    (a : ista_args) (mask : option T) (path : string) :
  state_after (S n) ks_input sensemap a mask path
  = fst (iteration a sensemap (used_mask ks_input mask)
           (anchor_image ks_input sensemap mask) n
           (state_after n ks_input sensemap a mask path)
           (scope_join path (scope a)) ∅).
Proof.
  unfold state_after. rewrite seq_S. simpl. rewrite for_each_snoc.
  pose proof (for_each_iteration_counters a sensemap
                (used_mask ks_input mask) (anchor_image ks_input sensemap mask)
                (seq 0 n)
                {| ks_k := masked_input ks_input mask;
                   im_k := anchor_image ks_input sensemap mask;
                   im_dense := None; summary_iter := ∅ |}
                (scope_join path (scope a)) ∅) as Hc.
  destruct (for_each _ _ _ _ _) as [s' c']. simpl in Hc. by subst c'.
Qed.

(** What an iteration computes, with the estimate handed to the prior
    network made explicit. *)
Lemma iteration_unfold (a : ista_args) (sensemap : option T) (mask im_0 : T)
    (i : nat) (st : ista_state T) (path : string) (c : gmap string nat) :
  let here := scope_join path (scope_name a i) in
  let t :=
    if fix_update a then tf_constant (-2)
    else tf_get_variable (scope_join (scope_join here "update") "t") (-2) in
  let ks := tf_multiply mask (model_forward (im_k st) sensemap) in
  let gradient := tf_subtract (model_transpose ks sensemap) im_0 in
  let new_estimate :=
    tf_add (complex_to_channels (im_k st))
           (tf_multiply t (complex_to_channels gradient)) in
  let out := fst (prox_block a new_estimate (im_dense st)
                    (scope_join here "prox") ∅) in
  iteration a sensemap mask im_0 i st path c
  = ({| ks_k := ks; im_k := tf_identity (fst out) "image";
        im_dense := snd out;
        summary_iter :=
          <[iter_name i := tf_identity (fst out) "image"]> (summary_iter st) |},
     c).
Proof.
  unfold iteration, update_block, variable_name. build_unfold. simpl.
  destruct (fix_update a); simpl;
    destruct (prox_block _ _ _ _ _) as [[im' dense'] c']; reflexivity.
Qed.

Lemma iteration_unrecorded_unfold (a : ista_args) (sensemap : option T)
    (mask im_0 : T) (i : nat) (st : ista_state T) (path : string)
    (c : gmap string nat) :
  let r := fst (iteration a sensemap mask im_0 i st path c) in
  iteration_unrecorded a sensemap mask im_0 i st path c
  = ({| ks_k := ks_k r; im_k := im_k r; im_dense := im_dense r;
        summary_iter := summary_iter st |}, c).
Proof.
  unfold iteration, iteration_unrecorded. build_unfold. simpl.
  destruct (update_block _ _ _ _ _ _ _) as [[ks' im'] c1]. simpl.
  destruct (prox_block _ _ _ _ _) as [[im'' dense'] c2]. reflexivity.
Qed.

(** An iteration reads the image estimate and the dense accumulator of the
    state, nothing else. *)
Lemma iteration_reads (a : ista_args) (sensemap : option T) (mask im_0 : T)
    (i : nat) (st st' : ista_state T) (path : string) (c : gmap string nat) :
  im_k st = im_k st' → im_dense st = im_dense st' →
  let r := fst (iteration a sensemap mask im_0 i st path c) in
  let r' := fst (iteration a sensemap mask im_0 i st' path c) in
  ks_k r = ks_k r' ∧ im_k r = im_k r' ∧ im_dense r = im_dense r'.
Proof.
  intros E1 E2. rewrite !iteration_unfold. simpl. by rewrite E1, E2.
Qed.

Lemma unrecorded_simulation (a : ista_args) (sensemap : option T)
    (mask im_0 : T) (l : list nat) (st st' : ista_state T) (path : string)
    (c : gmap string nat) :
  im_k st = im_k st' → im_dense st = im_dense st' →
  let r := fst (for_each l (iteration a sensemap mask im_0) st path c) in
  let r' := fst (for_each l (iteration_unrecorded a sensemap mask im_0) st' path c) in
  (l ≠ [] ∨ ks_k st = ks_k st') →
  ks_k r = ks_k r' ∧ im_k r = im_k r' ∧ im_dense r = im_dense r'.
Proof.
  revert st st'. induction l as [|i l IH]; intros st st' E1 E2; simpl.
  - intros [? | ?]; done.
  - intros _. build_unfold.
    rewrite iteration_unrecorded_unfold.
    destruct (iteration a sensemap mask im_0 i st path c) as [s1 c1] eqn:Es.
    pose proof (iteration_counters a sensemap mask im_0 i st path c) as Hc.
    rewrite Es in Hc. simpl in Hc. subst c1.
    pose proof (iteration_reads a sensemap mask im_0 i st st' path c E1 E2)
      as (K1 & K2 & K3).
    rewrite Es in K1, K2, K3. simpl in K1, K2, K3.
    apply IH; simpl; auto.
Qed.

End Loop.

(** ** The diagnostic mapping *)

Section Diagnostics.
Context {T : Type} `{TensorOps T}.
Variables (ks_input : T) (sensemap : option T) (a : ista_args)
  (mask : option T) (path : string).

Abbreviation state n := (state_after n ks_input sensemap a mask path).

Lemma summary_step (n : nat) :
  summary_iter (state (S n))
  = <[iter_name n := im_k (state (S n))]> (summary_iter (state n)).
Proof. rewrite state_after_S, iteration_unfold. reflexivity. Qed.

Lemma summary_keys (n : nat) (key : string) :
  is_Some (summary_iter (state n) !! key) ↔ ∃ i, (i < n)%nat ∧ key = iter_name i.
Proof.
  induction n as [|n IH].
  - unfold state_after. simpl. build_unfold. simpl. rewrite lookup_empty.
    split; [by intros [? ?] | intros (i & Hi & _); lia].
  - rewrite summary_step, lookup_insert. case_decide as Hk.
    + split; [| by eauto]. intros _. exists n. split; [lia | done].
    + rewrite IH. split.
      * intros (i & Hi & ->). exists i. split; [lia | done].
      * intros (i & Hi & ->). exists i. split; [| done].
        destruct (decide (i = n)) as [-> | ?]; [done | lia].
Qed.

Lemma summary_size (n : nat) : size (summary_iter (state n)) = n.
Proof.
  induction n as [|n IH].
  - unfold state_after. simpl. build_unfold. simpl. apply map_size_empty.
  - rewrite summary_step, map_size_insert_None, IH; [done |].
    apply eq_None_not_Some. rewrite summary_keys.
    intros (i & Hi & E). apply iter_name_inj in E. lia.
Qed.

Lemma summary_lookup (n i : nat) :
  (i < n)%nat →
  summary_iter (state n) !! iter_name i = Some (im_k (state (S i))).
Proof.
  induction n as [|n IH]; [lia |]. intros Hi.
  rewrite summary_step. destruct (decide (i = n)) as [-> | Hne].
  - by rewrite lookup_insert_eq.
  - rewrite lookup_insert_ne; [apply IH; lia |].
    intros E. by apply iter_name_inj in E.
Qed.

(** The image estimate of a state is the named output of the prox block of
    the iteration that produced it. *)
Lemma state_image_post_prior (i : nat) :
  ∃ estimate dense scope_path,
    im_k (state (S i))
    = tf_identity (fst (fst (prox_block a estimate dense scope_path ∅))) "image".
Proof. rewrite state_after_S, iteration_unfold. simpl. eauto. Qed.

(** C9: [unroll_ista] returns a mapping of exactly [num_grad_steps]
    entries, whose keys are the names ["iter_%02d" % i] of the iterations
    [0 .. num_grad_steps - 1]; the entry of iteration [i] is the image
    estimate that iteration produced, the named output of its prox block;
    and the solver without the recording returns the same image and
    k-space. *)
Theorem diagnostics_per_iteration (mask_output : option T)
    (c : gmap string nat) :
  let n := Z.to_nat (num_grad_steps a) in
  let '(im_out, ks_out, summary) :=
    fst (unroll_ista ks_input sensemap a mask_output mask path c) in
  size summary = n
  ∧ (∀ key, is_Some (summary !! key) ↔ ∃ i, (i < n)%nat ∧ key = iter_name i)
  ∧ (∀ i, (i < n)%nat →
       summary !! iter_name i = Some (im_k (state (S i)))
       ∧ ∃ estimate dense scope_path,
           im_k (state (S i))
           = tf_identity (fst (fst (prox_block a estimate dense scope_path ∅)))
               "image")
  ∧ (im_out, ks_out)
    = fst (unroll_ista_unrecorded ks_input sensemap a mask_output mask path c).
Proof.
  intros n.
  assert (Hun : fst (fst (unroll_ista ks_input sensemap a mask_output mask path c))
                = fst (unroll_ista_unrecorded ks_input sensemap a mask_output
                         mask path c)).
  { unfold unroll_ista, unroll_ista_unrecorded, used_mask. build_unfold. simpl.
    set (m := match mask with Some m => m | None => kspace_mask ks_input end).
    set (init := {| ks_k := tf_multiply m ks_input;
                    im_k := tf_identity (model_transpose (tf_multiply m ks_input)
                                           sensemap) "input_image";
                    im_dense := None; summary_iter := ∅ |}).
    pose proof (unrecorded_simulation a sensemap m (im_k init)
                  (py_range (num_grad_steps a)) init init
                  (scope_join path (scope a)) ∅ eq_refl eq_refl
                  (or_intror eq_refl)) as (_ & K & _).
    simpl in K. fold init.
    destruct (for_each _ (iteration _ _ _ _) _ _ _) as [s1 c1].
    destruct (for_each _ (iteration_unrecorded _ _ _ _) _ _ _) as [s2 c2].
    simpl in *. rewrite K.
    destruct (hard_projection a); [destruct mask_output |]; reflexivity. }
  rewrite unroll_ista_run in *. fold n in Hun |- *.
  destruct (hard_projection a); cbv zeta in *; simpl in Hun |- *;
    (split; [apply summary_size |]);
    (split; [apply summary_keys |]);
    (split; [| exact Hun]);
    intros i Hi; (split; [by apply summary_lookup | apply state_image_post_prior]).
Qed.

End Diagnostics.

(** ** The gradient step *)

Section Update.
Context {T : Type} `{TensorOps T}.

Lemma iter_name_nonempty (i : nat) : iter_name i ≠ "".
Proof. unfold iter_name. discriminate. Qed.

Lemma t_name_shared (path : string) (a : ista_args) (i j : nat) :
  resblock_share a = true → t_name path a j = t_name path a i.
Proof. intros E. unfold t_name, scope_name. by rewrite E. Qed.

Lemma t_name_own (path : string) (a : ista_args) (i j : nat) :
  resblock_share a = false → t_name path a j = t_name path a i → j = i.
Proof.
  intros E. unfold t_name, scope_name. rewrite E. intros Ht.
  apply scope_join_inj_l in Ht;
    [| by apply scope_join_nonempty | by apply scope_join_nonempty].
  apply scope_join_inj_l in Ht;
    [| apply scope_join_nonempty, iter_name_nonempty
     | apply scope_join_nonempty, iter_name_nonempty].
  apply scope_join_inj in Ht. by apply iter_name_inj.
Qed.

Lemma prox_block_unfold (a : ista_args) (estimate : T) (dense : option T)
    (path : string) (c : gmap string nat) :
  let net_in :=
    match dense with
    | Some d => tf_concat (tf_transpose estimate [0; 3; 1; 2]) d 1
    | None => tf_transpose estimate [0; 3; 1; 2]
    end in
  let prior :=
    fst (prior_grad_res_net net_in (resblock_num_features a) 3
           (resblock_num_blocks a) (circular a) "channels_first" true
           (batchnorm a) (training a)
           (Some (py_index (tf_shape estimate) (-1))) "prior_grad_resnet"
           path c) in
  fst (fst (prox_block a estimate dense path c))
  = channels_to_complex (tf_transpose (fst prior) [0; 2; 3; 1]).
Proof.
  unfold prox_block. build_unfold.
  destruct (prior_grad_res_net _ _ _ _ _ _ _ _ _ _ _ _ _) as [[net d] c'].
  reflexivity.
Qed.

(** C2: in every iteration of a call of [unroll_ista], the estimate handed
    to the prior network (after the change of layout, and joined with the
    dense accumulator when there is one) is
    [pre_update + t * gradient]: both terms repacked to real channels,
    [gradient] the forward transform of the current estimate, masked,
    adjoint-transformed, minus the anchor image, which is the adjoint
    transform of the masked input.  [t] is the constant -2 with
    [fix_update], and otherwise the variable ["t"] of the update scope of the
    iteration: one variable for all iterations with [resblock_share], one
    per iteration without. *)
Theorem gradient_update (ks_input : T) (sensemap : option T) (a : ista_args)
    (mask : option T) (path : string) (i : nat) :
  let m := used_mask ks_input mask in
  let im_0 := anchor_image ks_input sensemap mask in
  let st := state_after i ks_input sensemap a mask path in
  let t :=
    if fix_update a then tf_constant (-2)
    else tf_get_variable (t_name path a i) (-2) in
  let gradient :=
    tf_subtract
      (model_transpose (tf_multiply m (model_forward (im_k st) sensemap)) sensemap)
      im_0 in
  let new_estimate :=
    tf_add (complex_to_channels (im_k st))
           (tf_multiply t (complex_to_channels gradient)) in
  let net_in :=
    match im_dense st with
    | Some d => tf_concat (tf_transpose new_estimate [0; 3; 1; 2]) d 1
    | None => tf_transpose new_estimate [0; 3; 1; 2]
    end in
  let prior :=
    fst (prior_grad_res_net net_in (resblock_num_features a) 3
           (resblock_num_blocks a) (circular a) "channels_first" true
           (batchnorm a) (training a)
           (Some (py_index (tf_shape new_estimate) (-1))) "prior_grad_resnet"
           (scope_join (scope_join (scope_join path (scope a)) (scope_name a i))
              "prox") ∅) in
  im_0 = tf_identity (model_transpose (tf_multiply m ks_input) sensemap)
           "input_image"
  ∧ im_k (state_after (S i) ks_input sensemap a mask path)
    = tf_identity (channels_to_complex (tf_transpose (fst prior) [0; 2; 3; 1]))
        "image"
  ∧ (resblock_share a = true → ∀ j, t_name path a j = t_name path a i)
  ∧ (resblock_share a = false → ∀ j, t_name path a j = t_name path a i → j = i).
Proof.
  intros m im_0 st t gradient new_estimate net_in prior.
  split; [reflexivity |]. split; [| split].
  - rewrite state_after_S, iteration_unfold. cbv zeta. simpl.
    rewrite prox_block_unfold. reflexivity.
  - intros E j. by apply t_name_shared.
  - intros E j. by apply t_name_own.
Qed.

End Update.

(** ** Shapes in the prior network *)

Lemma res_block_pad (k : Z) :
  1 ≤ k → py_int ((inject_Z (2 * (k - 1)) + 0.5) / 2)%Q = k - 1.
Proof.
  intros Hk. rewrite py_int_plus_half. rewrite Z.quot_div_nonneg by lia.
  Z.to_euclidean_division_equations. lia.
Qed.

Lemma slice_len_crop (n p : Z) :
  0 ≤ n → 0 ≤ p → slice_len (n + 2 * p) (Some (p, p + n)) = n.
Proof.
  intros Hn Hp. unfold slice_len, slice_bound.
  destruct (Z.ltb_spec (p + n) 0), (Z.ltb_spec p 0); lia.
Qed.

Section ShapeLemmas.
Context {T : Type} `{TensorOps T} {SL : ShapeLaws T}.

Lemma batch_norm_relu_shape (x : T) df bn tr path c :
  tf_shape (fst (_batch_norm_relu x df bn tr path c)) = tf_shape x.
Proof.
  unfold _batch_norm_relu, _batch_norm. build_unfold. destruct bn; simpl.
  - by rewrite shape_relu, shape_batch_normalization.
  - by rewrite shape_relu.
Qed.

Lemma conv2d_plain (x : T) F k df b path c :
  _conv2d x F k df false b path c
  = (tf_layers_conv2d (fst (layer_name "conv2d" path c)) x F k "same" b df,
     snd (layer_name "conv2d" path c)).
Proof.
  unfold _conv2d. build_unfold. destruct (String.eqb df "channels_last"); reflexivity.
Qed.


End ShapeLemmas.

Lemma py_index4 (a b c d : Z) :
  py_index [a; b; c; d] 0 = a ∧ py_index [a; b; c; d] 1 = b
  ∧ py_index [a; b; c; d] 2 = c ∧ py_index [a; b; c; d] 3 = d
  ∧ py_index [a; b; c; d] (-1) = d.
Proof. repeat split; reflexivity. Qed.

Lemma set_dim4 (a b c d v : Z) :
  set_dim [a; b; c; d] 0 v = [v; b; c; d] ∧ set_dim [a; b; c; d] 1 v = [a; v; c; d]
  ∧ set_dim [a; b; c; d] 2 v = [a; b; v; d] ∧ set_dim [a; b; c; d] 3 v = [a; b; c; v]
  ∧ set_dim [a; b; c; d] (-1) v = [a; b; c; v].
Proof. repeat split; reflexivity. Qed.

Ltac shape4 :=
  repeat first
    [ rewrite (proj1 (py_index4 _ _ _ _))
    | rewrite (proj1 (proj2 (py_index4 _ _ _ _)))
    | rewrite (proj1 (proj2 (proj2 (py_index4 _ _ _ _))))
    | rewrite (proj1 (proj2 (proj2 (proj2 (py_index4 _ _ _ _)))))
    | rewrite (proj2 (proj2 (proj2 (proj2 (py_index4 _ _ _ _)))))
    | rewrite (proj1 (set_dim4 _ _ _ _ _))
    | rewrite (proj1 (proj2 (set_dim4 _ _ _ _ _)))
    | rewrite (proj1 (proj2 (proj2 (set_dim4 _ _ _ _ _))))
    | rewrite (proj1 (proj2 (proj2 (proj2 (set_dim4 _ _ _ _ _)))))
    | rewrite (proj2 (proj2 (proj2 (proj2 (set_dim4 _ _ _ _ _)))))
    | progress cbn [getitem_shape] ].


Section ResidualBlock.
Context {T : Type} `{TensorOps T} {SL : ShapeLaws T}.

Lemma conv2d_same_shape_twice (s : list Z) (F : Z) (df : string) :
  conv2d_same_shape (conv2d_same_shape s F df) F df = conv2d_same_shape s F df.
Proof.
  unfold conv2d_same_shape, set_dim. rewrite length_insert.
  apply list_insert_insert_eq.
Qed.

(** The residual block, step by step. *)
Lemma res_block_unfold (x : T) (F k : Z) (df : string) (circ bn tr : bool)
    (name path : string) (c : gmap string nat) :
  let '(axis_z, axis_y, axis_c) := data_axes df in
  let pad := py_int ((inject_Z (2 * (k - 1)) + 0.5) / 2)%Q in
  let sc :=
    (if negb (F =? py_index (tf_shape x) axis_c)
     then _conv2d x F 1 df false (negb bn) else mret x) path c in
  let x0 :=
    if circ then circular_pad (circular_pad x pad axis_z) pad axis_y else x in
  let r0 := _batch_norm_relu x0 df bn tr path (snd sc) in
  let l1 := layer_name "conv2d" path (snd r0) in
  let a1 := tf_layers_conv2d (fst l1) (fst r0) F k "same" (negb bn) df in
  let r2 := _batch_norm_relu a1 df bn tr path (snd l1) in
  let l3 := layer_name "conv2d" path (snd r2) in
  let a3 := tf_layers_conv2d (fst l3) (fst r2) F k "same" (negb bn) df in
  let main :=
    if circ
    then crop a3 df (pad, pad + py_index (tf_shape x) axis_z)
                    (pad, pad + py_index (tf_shape x) axis_y)
    else a3 in
  _res_block x F k df circ bn tr name path c = (tf_add main (fst sc), snd l3).
Proof.
  unfold data_axes, _res_block.
  destruct (String.eqb df "channels_last") eqn:Edf; cbv zeta; build_unfold.
  all: match goal with
       | |- context [ (if negb ?b then ?f else ?g) ?p ?cc ] =>
           destruct ((if negb b then f else g) p cc) as [sc c1]
       end; simpl.
  all: destruct (_batch_norm_relu _ _ _ _ _ _) as [a0 c2]; simpl.
  all: rewrite conv2d_plain; simpl.
  all: destruct (_batch_norm_relu _ _ _ _ _ _) as [a2 c4]; simpl.
  all: rewrite conv2d_plain; reflexivity.
Qed.

End ResidualBlock.

(** ** The structure of the prior network *)

Section Prior.
Context {T : Type} `{TensorOps T}.

(** The prior network, step by step. *)
Lemma prior_unfold (x : T) (F k B : Z) (circ : bool) (df : string)
    (resid bn tr : bool) (nfo : option Z) (name path : string)
    (c : gmap string nat) :
  let '(axis_z, axis_y, axis_c) := data_axes df in
  let n_in := py_index (tf_shape x) axis_c in
  let n_out := default n_in nfo in
  let pad := py_int ((inject_Z ((B * 2 + 1) * (k - 1)) + 0.5) / 2)%Q in
  let sc :=
    (if resid && negb (n_in =? n_out)
     then _conv2d x n_out 1 df false (negb bn) else mret x) path c in
  let x0 :=
    if circ then circular_pad (circular_pad x pad axis_z) pad axis_y else x in
  let blocks :=
    for_each (py_range B)
      (λ _ net, _res_block net F k df false bn tr "res_block") x0 path (snd sc) in
  let r := _batch_norm_relu (fst blocks) df bn tr path (snd blocks) in
  let l := layer_name "conv2d" path (snd r) in
  let conv := tf_layers_conv2d (fst l) (fst r) n_out k "same" (negb bn) df in
  let z := (pad, pad + py_index (tf_shape x) axis_z) in
  let y := (pad, pad + py_index (tf_shape x) axis_y) in
  let net := if circ then crop conv df z y else conv in
  let net_dense := if circ then crop (fst blocks) df z y else fst blocks in
  prior_grad_res_net x F k B circ df resid bn tr nfo name path c
  = ((if resid then tf_add net (fst sc) else net, net_dense), snd l).
Proof.
  unfold data_axes, prior_grad_res_net.
  destruct (String.eqb df "channels_last") eqn:Edf; cbv zeta; build_unfold.
  all: match goal with
       | |- context [ (if ?b then ?f else ?g) ?p ?cc ] =>
           destruct ((if b then f else g) p cc) as [sc c1]
       end; cbn [fst snd].
  all: destruct (for_each _ _ _ _ _) as [blocks c2]; cbn [fst snd].
  all: destruct (_batch_norm_relu _ _ _ _ _ _) as [a0 c3]; cbn [fst snd].
  all: rewrite conv2d_plain; destruct circ; reflexivity.
Qed.
End Prior.

Section GraphStructure.
Variables forward_shape transpose_shape' : list Z → option (list Z) → list Z.
Let ops : TensorOps graph := Graph.ops forward_shape transpose_shape'.
#[local] Existing Instance ops.

Section Confinement.
Variable S : graph → Prop.

Lemma only_from_unary (g y : graph) :
  Graph.nodes g = g :: Graph.nodes y → (Graph.is_pad_or_crop g = true → S g) →
  Graph.only_from S y → Graph.only_from S g.
Proof.
  intros E Hg Hy n Hn Hs. rewrite E in Hn.
  apply elem_of_cons in Hn as [-> | Hn]; [by apply Hg | by apply Hy].
Qed.

Lemma only_from_add (a b : graph) :
  Graph.only_from S a → Graph.only_from S b → Graph.only_from S (TfAdd a b).
Proof.
  intros Ha Hb n Hn Hs. simpl in Hn.
  apply elem_of_cons in Hn as [-> | Hn]; [done |].
  apply elem_of_app in Hn as [Hn | Hn]; [by apply Ha | by apply Hb].
Qed.

Lemma only_from_relu (y : graph) : Graph.only_from S y → Graph.only_from S (Relu y).
Proof. by apply only_from_unary. Qed.

Lemma only_from_batch_normalization (y : graph) layer axis tr :
  Graph.only_from S y → Graph.only_from S (BatchNormalization layer y axis tr).
Proof. by apply only_from_unary. Qed.

Lemma only_from_conv2d_layer (y : graph) layer F k padding b df :
  Graph.only_from S y → Graph.only_from S (Conv2D layer y F k padding b df).
Proof. by apply only_from_unary. Qed.

Lemma only_from_batch_norm_relu (y : graph) df bn tr path c :
  Graph.only_from S y → Graph.only_from S (fst (_batch_norm_relu y df bn tr path c)).
Proof.
  intros Hy. unfold _batch_norm_relu, _batch_norm. build_unfold.
  destruct bn; simpl.
  - by apply only_from_relu, only_from_batch_normalization.
  - by apply only_from_relu.
Qed.

Lemma only_from_conv2d (y : graph) F k df b path c :
  Graph.only_from S y → Graph.only_from S (fst (_conv2d y F k df false b path c)).
Proof.
  intros Hy. rewrite conv2d_plain. cbn [fst].
  by apply only_from_conv2d_layer.
Qed.

Lemma only_from_res_block (y : graph) F k df bn tr name path c :
  Graph.only_from S y → Graph.only_from S (fst (_res_block y F k df false bn tr name path c)).
Proof.
  intros Hy.
  pose proof (res_block_unfold y F k df false bn tr name path c) as Hun.
  unfold data_axes in Hun.
  destruct (String.eqb df "channels_last"); cbv zeta in Hun; rewrite Hun;
    cbn [fst]; apply only_from_add.
  1, 3: apply only_from_conv2d_layer, only_from_batch_norm_relu,
          only_from_conv2d_layer; by apply only_from_batch_norm_relu.
  all: destruct (negb _); [by apply only_from_conv2d | done].
Qed.

Lemma only_from_blocks (l : list nat) (y : graph) F k df bn tr path c :
  Graph.only_from S y →
  Graph.only_from S (fst (for_each l (λ _ n, _res_block n F k df false bn tr "res_block")
                      y path c)).
Proof.
  revert y c. induction l as [|i l IH]; intros y c Hy; simpl; [done |].
  build_unfold.
  pose proof (only_from_res_block y F k df bn tr "res_block" path c Hy) as Hr.
  destruct (_res_block _ _ _ _ _ _ _ _ _ _) as [y' c']. by apply IH.
Qed.


End Confinement.

Lemma crop_getitem (g : graph) (df : string) (z y : Z * Z) :
  ∃ sl, crop g df z y = GetItem g sl.
Proof. unfold crop. destruct (String.eqb df "channels_last"); eauto. Qed.

Lemma prior_pad_floor (B k : Z) :
  0 ≤ B → 1 ≤ k →
  py_int ((inject_Z ((B * 2 + 1) * (k - 1)) + 0.5) / 2)%Q
  = py_floor ((inject_Z ((2 * B + 1) * (k - 1)) + 0.5) / 2)%Q.
Proof.
  intros HB Hk. replace (B * 2 + 1) with (2 * B + 1) by lia.
  apply py_int_floor_plus_half. nia.
Qed.

(** C4: in [prior_grad_res_net] with [B >= 0] blocks, kernel size
    [k >= 1] and circular mode on, the input is padded circularly by
    [floor(((2B+1)(k-1)+0.5)/2)] on the z axis and then on the y axis; the
    [B] residual blocks are all called with [circular=False], one after the
    other, on that padded input; both results are cropped once at the end;
    and the graph has no other circular pad or crop than those two pads and
    that crop, apart from what the input itself contains. *)
Theorem prior_single_pad (x : graph) (F k B : Z) (df : string)
    (resid bn tr : bool) (nfo : option Z) (name path : string)
    (c : gmap string nat) :
  0 ≤ B → 1 ≤ k →
  let '(axis_z, axis_y, _) := data_axes df in
  let p := py_floor ((inject_Z ((2 * B + 1) * (k - 1)) + 0.5) / 2)%Q in
  let pad_z := CircularPad x p axis_z in
  let padded := CircularPad pad_z p axis_y in
  let z := (p, p + py_index (tf_shape x) axis_z) in
  let y := (p, p + py_index (tf_shape x) axis_y) in
  let '(net, net_dense) :=
    fst (prior_grad_res_net x F k B true df resid bn tr nfo name path c) in
  ∃ c1 conv shortcut,
    let blocks :=
      fst (for_each (py_range B)
             (λ _ n, _res_block n F k df false bn tr "res_block")
             padded path c1) in
    net_dense = crop blocks df z y
    ∧ net = (if resid then TfAdd (crop conv df z y) shortcut
             else crop conv df z y)
    ∧ (∀ n, n ∈ Graph.nodes net ∨ n ∈ Graph.nodes net_dense →
            Graph.is_circular_pad n = true →
            n = pad_z ∨ n = padded ∨ n ∈ Graph.nodes x)
    ∧ (∀ n, n ∈ Graph.nodes net → Graph.is_getitem n = true →
            n = crop conv df z y ∨ n ∈ Graph.nodes x)
    ∧ (∀ n, n ∈ Graph.nodes net_dense → Graph.is_getitem n = true →
            n = net_dense ∨ n ∈ Graph.nodes x).
Proof.
  intros HB Hk.
  pose proof (prior_unfold x F k B true df resid bn tr nfo name path c) as Hun.
  rewrite (prior_pad_floor B k HB Hk) in Hun.
  unfold data_axes in *.
  destruct (String.eqb df "channels_last") eqn:Edf; cbv zeta in *;
    rewrite Hun; clear Hun; cbn [fst snd];
    change (@circular_pad graph ops) with CircularPad;
    change (@tf_add graph ops) with TfAdd.
  all: match goal with
       | |- context [ for_each _ _ (CircularPad (CircularPad _ ?p ?az) ?p ?ay) _ ?c1 ] =>
           set (pad_z := CircularPad x p az);
           set (padded := CircularPad pad_z p ay);
           set (S := λ n, n = pad_z ∨ n = padded ∨ n ∈ Graph.nodes x);
           set (blocks := fst (for_each (py_range B)
                  (λ _ n, _res_block n F k df false bn tr "res_block")
                  padded path c1));
           assert (Hx : Graph.only_from S x) by (intros n Hn _; right; by right);
           assert (Hpadded : Graph.only_from S padded)
             by (apply only_from_unary with (y := pad_z);
                 [done | intros _; right; by left |];
                 apply only_from_unary with (y := x);
                 [done | intros _; by left | done]);
           assert (Hblocks : Graph.only_from S blocks)
             by (by apply only_from_blocks)
       end.
  all: match goal with
       | |- context [ tf_layers_conv2d ?l ?a ?f ?kk "same" ?b ?d ] =>
           set (conv := tf_layers_conv2d l a f kk "same" b d);
           assert (Hconv : Graph.only_from S conv)
             by (apply only_from_conv2d_layer;
                 by apply only_from_batch_norm_relu)
       end.
  all: match goal with
       | |- context [ (if ?b then ?f else ?g) ?pp ?cc ] =>
           set (sc := fst ((if b then f else g) pp cc));
           assert (Hsc : Graph.only_from S sc)
             by (subst sc; destruct b; [by apply only_from_conv2d | done])
       end.
  all: assert (Hget : ∀ n, S n → Graph.is_getitem n = true → n ∈ Graph.nodes x)
         by (intros n [-> | [-> | Hn]]; done).
  all: assert (Hpad : ∀ g n, Graph.only_from S g → n ∈ Graph.nodes g →
                        Graph.is_circular_pad n = true → S n)
         by (intros g n Hg Hn Hp; apply (Hg n Hn); unfold Graph.is_pad_or_crop; by rewrite Hp).
  all: assert (Hcrop : ∀ g n, Graph.only_from S g → n ∈ Graph.nodes g →
                         Graph.is_getitem n = true → n ∈ Graph.nodes x)
         by (intros g n Hg Hn Hp; apply Hget; [| done]; apply (Hg n Hn);
             unfold Graph.is_pad_or_crop; rewrite Hp; by destruct (Graph.is_circular_pad n)).
  all: eexists _, conv, sc.
  all: cbv zeta; split; [reflexivity |]; split; [reflexivity |].
  all: unfold crop; rewrite Edf; cbv iota;
       change (@tf_getitem graph ops) with GetItem.
  all: match goal with
       | |- context [ GetItem _ ?sl ] => set (sl1 := sl)
       end.
  all: assert (Hnet : Graph.only_from (λ n, n = GetItem conv sl1 ∨ S n)
                        (if resid then TfAdd (GetItem conv sl1) sc
                         else GetItem conv sl1)).
  1, 3: assert (Hc : Graph.only_from (λ n, n = GetItem conv sl1 ∨ S n) (GetItem conv sl1))
          by (apply only_from_unary with (y := conv);
              [done | intros _; by left | intros n Hn Hs; right; by apply Hconv]);
        destruct resid; [| exact Hc]; apply only_from_add; [exact Hc |];
        intros n Hn Hs; right; by apply Hsc.
  all: split; [| split].
  1, 4: intros n [Hn | Hn] Hp.
  1, 3: assert (Hs : Graph.is_pad_or_crop n = true) by (unfold Graph.is_pad_or_crop; by rewrite Hp);
        destruct (Hnet n Hn Hs) as [-> | HS]; [done | exact HS].
  1, 2: simpl in Hn; apply elem_of_cons in Hn as [-> | Hn]; [done |];
        by apply (Hpad blocks).
  1, 3: intros n Hn Hp;
        assert (Hs : Graph.is_pad_or_crop n = true)
          by (unfold Graph.is_pad_or_crop; rewrite Hp; by destruct (Graph.is_circular_pad n));
        destruct (Hnet n Hn Hs) as [-> | HS]; [by left | right; by apply Hget].
  all: intros n Hn Hp; simpl in Hn; apply elem_of_cons in Hn as [-> | Hn];
       [by left | right; by apply (Hcrop blocks)].
Qed.

End GraphStructure.

(** ** Configurations *)

Lemma for_each_ext {S : Type} (l : list nat) (f g : nat → S → Build S) :
  (∀ i s path c, f i s path c = g i s path c) →
  ∀ s path c, for_each l f s path c = for_each l g s path c.
Proof.
  intros Hfg. induction l as [|i l IH]; intros s path c; simpl; [done |].
  build_unfold. rewrite Hfg. destruct (g i s path c) as [s' c']. apply IH.
Qed.

(** Without blocks the number of features is not used. *)
Section NoCheck.
Context {T : Type} `{TensorOps T}.

Lemma prior_features_unused (x : T) (F F' k B : Z) (circ : bool) (df : string)
    (resid bn tr : bool) (nfo : option Z) (name path : string)
    (c : gmap string nat) :
  B < 1 →
  prior_grad_res_net x F k B circ df resid bn tr nfo name path c
  = prior_grad_res_net x F' k B circ df resid bn tr nfo name path c.
Proof.
  intros HB.
  pose proof (prior_unfold x F k B circ df resid bn tr nfo name path c) as Hun.
  pose proof (prior_unfold x F' k B circ df resid bn tr nfo name path c) as Hun'.
  unfold data_axes in *. unfold py_range in *.
  replace (Z.to_nat B) with 0%nat in * by lia.
  destruct (String.eqb df "channels_last"); cbv zeta in *;
    rewrite Hun, Hun'; simpl; done.
Qed.

Lemma prox_block_features_unused (a : ista_args) (F' : Z) (estimate : T)
    (dense : option T) (path : string) (c : gmap string nat) :
  resblock_num_blocks a < 1 →
  prox_block (with_features a F') estimate dense path c
  = prox_block a estimate dense path c.
Proof.
  intros HB. unfold prox_block. build_unfold.
  cbn [with_features resblock_num_features resblock_num_blocks circular
       batchnorm training do_dense].
  by rewrite (prior_features_unused _ F' (resblock_num_features a)).
Qed.

Lemma iteration_features_unused (a : ista_args) (F' : Z)
    (sensemap : option T) (mask im_0 : T) (i : nat) (st : ista_state T)
    (path : string) (c : gmap string nat) :
  resblock_num_blocks a < 1 →
  iteration (with_features a F') sensemap mask im_0 i st path c
  = iteration a sensemap mask im_0 i st path c.
Proof.
  intros HB. rewrite !iteration_unfold. cbv zeta.
  unfold scope_name. cbn [with_features resblock_share fix_update].
  by rewrite prox_block_features_unused.
Qed.

Lemma unroll_ista_features_unused (ks_input : T) (sensemap : option T)
    (a : ista_args) (F' : Z) (mask_output mask : option T) (path : string)
    (c : gmap string nat) :
  resblock_num_blocks a < 1 →
  unroll_ista ks_input sensemap (with_features a F') mask_output mask path c
  = unroll_ista ks_input sensemap a mask_output mask path c.
Proof.
  intros HB. unfold unroll_ista. build_unfold.
  cbn [with_features scope num_grad_steps hard_projection].
  erewrite for_each_ext; [reflexivity |].
  intros i s p c'. by apply iteration_features_unused.
Qed.
End NoCheck.

(** A call returns what [unroll_ista] builds or fails with the
    [ValueError] of TensorFlow. *)
Lemma call_outcome
    (forward_shape transpose_shape' : list Z → option (list Z) → list Z)
    (rejects : graph → bool) (ks_input : graph) (sensemap : option graph)
    (a : ista_args) (mask_output mask : option graph) :
  call_unroll_ista forward_shape transpose_shape' rejects ks_input sensemap a
    mask_output mask
  = Returns (run (unroll_ista (H := Graph.ops forward_shape transpose_shape')
                    ks_input sensemap a mask_output mask))
  ∨ call_unroll_ista forward_shape transpose_shape' rejects ks_input sensemap a
      mask_output mask
    = Raises "ValueError".
Proof.
  unfold call_unroll_ista. cbv zeta.
  destruct (existsb _ _ || existsb _ _); [by right | by left].
Qed.

(** C8 (amended): [unroll_ista] checks neither [resblock_num_features] nor
    [resblock_num_blocks] and never raises [InvalidConfiguration]: a call
    returns the network it builds or fails with the [ValueError] of a call of
    TensorFlow.  With fewer than one block the outcome of the call, network
    or error, is the same for every number of features, and the prior
    network has no residual block: its dense output is the (padded and
    cropped) input, its output the normalization, activation and
    convolution of that input, plus the shortcut, and [num_features] is not
    used. *)
Theorem no_configuration_check
    (forward_shape transpose_shape' : list Z → option (list Z) → list Z)
    (rejects : graph → bool) (ks_input : graph) (sensemap : option graph)
    (a : ista_args) (mask_output mask : option graph) :
  let call := call_unroll_ista forward_shape transpose_shape' rejects in
  (call ks_input sensemap a mask_output mask
   = Returns (run (unroll_ista (H := Graph.ops forward_shape transpose_shape')
                     ks_input sensemap a mask_output mask))
   ∨ call ks_input sensemap a mask_output mask = Raises "ValueError")
  ∧ call ks_input sensemap a mask_output mask ≠ Raises "InvalidConfiguration"
  ∧ (resblock_num_blocks a < 1 →
     ∀ F', call ks_input sensemap (with_features a F') mask_output mask
           = call ks_input sensemap a mask_output mask)
  ∧ ∀ (T : Type) (ops : TensorOps T)
      (x : T) (F F' k B : Z) (circ : bool) (df : string) (resid bn tr : bool)
      (nfo : option Z) (name path : string) (c : gmap string nat),
      B < 1 →
      let '(axis_z, axis_y, axis_c) := data_axes df in
      let n_in := py_index (tf_shape x) axis_c in
      let n_out := default n_in nfo in
      let pad := py_int ((inject_Z ((B * 2 + 1) * (k - 1)) + 0.5) / 2)%Q in
      let z := (pad, pad + py_index (tf_shape x) axis_z) in
      let y := (pad, pad + py_index (tf_shape x) axis_y) in
      let sc :=
        (if resid && negb (n_in =? n_out)
         then _conv2d x n_out 1 df false (negb bn) else mret x) path c in
      let x0 :=
        if circ then circular_pad (circular_pad x pad axis_z) pad axis_y
        else x in
      let r := _batch_norm_relu x0 df bn tr path (snd sc) in
      let conv :=
        tf_layers_conv2d (fst (layer_name "conv2d" path (snd r))) (fst r)
          n_out k "same" (negb bn) df in
      let net := if circ then crop conv df z y else conv in
      let '(out, dense) :=
        fst (prior_grad_res_net x F k B circ df resid bn tr nfo name path c) in
      out = (if resid then tf_add net (fst sc) else net)
      ∧ dense = (if circ then crop x0 df z y else x0)
      ∧ prior_grad_res_net x F k B circ df resid bn tr nfo name path c
        = prior_grad_res_net x F' k B circ df resid bn tr nfo name path c.
Proof.
  intros call. subst call.
  split; [apply call_outcome |]. split.
  { destruct (call_outcome forward_shape transpose_shape' rejects ks_input
                sensemap a mask_output mask) as [E | E]; rewrite E; discriminate. }
  split.
  { intros HB F'. unfold call_unroll_ista, run. cbv zeta.
    rewrite unroll_ista_features_unused by exact HB. reflexivity. }
  intros T ops x F F' k B circ df resid bn tr nfo name path c HB.
  pose proof (prior_unfold x F k B circ df resid bn tr nfo name path c) as Hun.
  pose proof (prior_unfold x F' k B circ df resid bn tr nfo name path c) as Hun'.
  unfold data_axes in *. unfold py_range in *.
  replace (Z.to_nat B) with 0%nat in * by lia.
  destruct (String.eqb df "channels_last"); cbv zeta in *;
    rewrite Hun, Hun'; simpl; done.
Qed.

(** C8 as stated fails: with no block and no feature the call returns,
    even where TensorFlow refuses layers without filters, and the network
    of the one iteration has a single convolution. *)
Lemma invalid_configuration_counterexample :
  let call := call_unroll_ista (λ s _, s) (λ s _, s) below_one in
  let ks_input := Placeholder "ks_input" [1; 8; 8; 1] in
  resblock_num_features no_blocks < 1 ∧ resblock_num_blocks no_blocks < 1
  ∧ call ks_input None no_blocks (Some (Constant 1)) None
    ≠ Raises "InvalidConfiguration"
  ∧ ∃ im ks summary,
    call ks_input None no_blocks (Some (Constant 1)) None
    = Returns (im, ks, summary)
    ∧ Graph.count Graph.is_conv2d im = 1%nat
    ∧ Graph.count Graph.is_circular_pad im = 2%nat.
Proof.
  intros call ks_input. subst call.
  split; [simpl; lia |]. split; [simpl; lia |].
  destruct (call_outcome (λ s _, s) (λ s _, s) below_one ks_input None
              no_blocks (Some (Constant 1)) None) as [E | E].
  - split; [rewrite E; discriminate |].
    destruct (run _) as [[im ks] summary] eqn:Er.
    exists im, ks, summary. split; [exact E |].
    assert (Him : im = fst (fst (run (unroll_ista
                     (H := Graph.ops (λ s _, s) (λ s _, s)) ks_input None
                     no_blocks (Some (Constant 1)) None))))
      by (by rewrite Er).
    rewrite Him. split; vm_compute; reflexivity.
  - exfalso. vm_compute in E. discriminate.
Qed.

(** The errors of TensorFlow are real: with shared weights and dense
    connections the second iteration asks for the layers of the first with
    other shapes, and the call fails whatever arguments TensorFlow accepts;
    with shared weights alone the shapes agree; and a block without
    features fails where TensorFlow refuses layers without filters. *)
Example shared_dense_clash :
  call_unroll_ista (λ s _, s) (λ s _, s) (λ _, false)
    (Placeholder "ks_input" [1; 8; 8; 1]) None shared_dense
    (Some (Constant 1)) None
  = Raises "ValueError".
Proof. vm_compute. reflexivity. Qed.

Example shared_weights_accepted :
  call_unroll_ista (λ s _, s) (λ s _, s) below_one
    (Placeholder "ks_input" [1; 8; 8; 1]) None shared_two_steps
    (Some (Constant 1)) None
  ≠ Raises "ValueError".
Proof. vm_compute. discriminate. Qed.

Example no_features_rejected :
  call_unroll_ista (λ s _, s) (λ s _, s) below_one
    (Placeholder "ks_input" [1; 8; 8; 1]) None no_features
    (Some (Constant 1)) None
  = Raises "ValueError".
Proof. vm_compute. reflexivity. Qed.

(** ** The circular convolution *)

Lemma conv_pad_odd (p : Z) :
  0 ≤ p →
  py_int ((inject_Z (2 * p + 1) - 0.5) / 2)%Q = p
  ∧ py_floor ((inject_Z (2 * p + 1) - 0.5) / 2)%Q = p.
Proof.
  intros Hp. rewrite py_int_minus_half, py_floor_minus_half.
  rewrite Z.quot_div_nonneg by lia.
  split; Z.to_euclidean_division_equations; lia.
Qed.

Lemma slice_bound_inside (n i : Z) : 0 ≤ i ≤ n → slice_bound n i = i.
Proof.
  intros Hi. unfold slice_bound. destruct (Z.ltb_spec i 0); lia.
Qed.

Lemma slice_len_crop_r (n p : Z) :
  0 ≤ n → 0 ≤ p → slice_len (n + 2 * p) (Some (p, n + p)) = n.
Proof.
  intros Hn Hp. replace (n + p) with (p + n) by lia. by apply slice_len_crop.
Qed.

Section CircularConvolution.
Context {C : Type} `{Scalar C}.
Variable nm : Numeric.numerics C.
Let ops : TensorOps (Numeric.ntensor C) := Numeric.ops nm.
#[local] Existing Instance ops.

Lemma sum_upto_ext (n : nat) (f g : nat → C) :
  (∀ a, (a < n)%nat → f a = g a) → Numeric.sum_upto n f = Numeric.sum_upto n g.
Proof.
  intros E. unfold Numeric.sum_upto. f_equal.
  apply map_ext_in. intros a Ha. apply in_seq in Ha. apply E. lia.
Qed.

Lemma padded_source (x : Numeric.ntensor C) (p : Z) (df : string)
    (i0 i1 i2 i3 j1 j2 j3 z y ch d0 d1 d2 d3 : Z) :
  Numeric.nshape x = [d0; d1; d2; d3] →
  let '(axis_z, axis_y, _) := data_axes df in
  0 ≤ z < py_index (Numeric.nshape x) axis_z + 2 * p →
  0 ≤ y < py_index (Numeric.nshape x) axis_y + 2 * p →
  Numeric.zero_padded
    (Numeric.ncircular_pad (Numeric.ncircular_pad x p axis_z) p axis_y) df
    [i0; i1; i2; i3] z y ch
  = Numeric.wrapped x df [i0; j1; j2; j3] (z - p) (y - p) ch.
Proof.
  intros Hs. unfold data_axes, Numeric.zero_padded, Numeric.wrapped, data_axes.
  destruct (String.eqb df "channels_last"); rewrite Hs; shape4; intros Hz Hy;
    cbn [Numeric.nshape Numeric.ncircular_pad Numeric.ndata]; rewrite Hs;
    unfold circular_pad_shape, Numeric.in_range; shape4.
  all: repeat match goal with
       | |- context [ (0 <=? ?a) && (?a <? ?b) ] =>
           replace ((0 <=? a) && (a <? b)) with true
             by (symmetry; apply andb_true_intro; split;
                 [apply Z.leb_le | apply Z.ltb_lt]; lia)
       end.
  all: reflexivity.
Qed.

Lemma inside_source (x : Numeric.ntensor C) (df : string) (i : list Z)
    (z y ch : Z) :
  let '(axis_z, axis_y, _) := data_axes df in
  0 ≤ z < py_index (Numeric.nshape x) axis_z →
  0 ≤ y < py_index (Numeric.nshape x) axis_y →
  Numeric.zero_padded x df i z y ch = Numeric.wrapped x df i z y ch.
Proof.
  unfold Numeric.zero_padded, Numeric.wrapped, data_axes, Numeric.in_range.
  destruct (String.eqb df "channels_last"); intros Hz Hy.
  all: rewrite !Z.mod_small by lia.
  all: repeat match goal with
       | |- context [ (0 <=? ?a) && (?a <? ?b) ] =>
           replace ((0 <=? a) && (a <? b)) with true
             by (symmetry; apply andb_true_intro; split;
                 [apply Z.leb_le | apply Z.ltb_lt]; lia)
       end.
  all: reflexivity.
Qed.

(** C5: for a rank-4 input and an odd kernel size [k = 2p + 1], [_conv2d]
    in circular mode pads by [floor((k - 0.5) / 2) = p] on the z axis and on
    the y axis, convolves, and crops [p] from both ends of both axes (nothing
    of this for [p = 0]); the result has the shape of the input with
    [num_features] channels, and at every position within that shape it is
    the 'same'-padding convolution with a periodic boundary.  With circular
    mode off [_conv2d] is the 'same'-padding convolution of the layer, with
    its zero boundary. *)
Theorem conv2d_circular (x : Numeric.ntensor C) (F k p : Z) (df : string)
    (use_bias : bool) (path : string) (c : gmap string nat) (d0 d1 d2 d3 : Z) :
  Numeric.nshape x = [d0; d1; d2; d3] →
  0 ≤ d1 → 0 ≤ d2 → 0 ≤ d3 →
  0 ≤ p → k = 2 * p + 1 →
  let '(axis_z, axis_y, _) := data_axes df in
  let size_z := py_index (Numeric.nshape x) axis_z in
  let size_y := py_index (Numeric.nshape x) axis_y in
  let layer := fst (layer_name "conv2d" path c) in
  let padded := circular_pad (circular_pad x p axis_z) p axis_y in
  let out := fst (_conv2d x F k df true use_bias path c) in
  py_int ((inject_Z k - 0.5) / 2)%Q = py_floor ((inject_Z k - 0.5) / 2)%Q
  ∧ py_floor ((inject_Z k - 0.5) / 2)%Q = p
  ∧ out = (if 0 <? p
           then crop (tf_layers_conv2d layer padded F k "same" use_bias df) df
                  (p, size_z + p) (p, size_y + p)
           else tf_layers_conv2d layer x F k "same" use_bias df)
  ∧ tf_shape out = conv2d_same_shape (tf_shape x) F df
  ∧ (∀ i0 i1 i2 i3,
       0 ≤ py_index [i0; i1; i2; i3] axis_z < size_z →
       0 ≤ py_index [i0; i1; i2; i3] axis_y < size_y →
       Numeric.ndata out [i0; i1; i2; i3]
       = Numeric.ndata (Numeric.conv2d_periodic nm layer x F k use_bias df)
           [i0; i1; i2; i3])
  ∧ fst (_conv2d x F k df false use_bias path c)
    = tf_layers_conv2d layer x F k "same" use_bias df.
Proof.
  intros Hs H1 H2 H3 Hp ->.
  destruct (conv_pad_odd p Hp) as [Hint Hfloor].
  assert (Hhalf : (2 * p + 1 - 1) / 2 = p)
    by (Z.to_euclidean_division_equations; lia).
  unfold data_axes.
  destruct (String.eqb df "channels_last") eqn:Edf; cbv zeta.
  all: split; [by rewrite Hint, Hfloor |]; split; [exact Hfloor |].
  all: match goal with
       | |- ?lhs = ?rhs ∧ _ => assert (Hout : lhs = rhs)
       end.
  1, 3: unfold _conv2d; rewrite Edf, Hint; build_unfold; simpl andb;
        destruct (0 <? p); reflexivity.
  all: rewrite Hout; split; [reflexivity |].
  all: split; [| split; [| by rewrite conv2d_plain]].
  (* the spatial extent *)
  1, 3: destruct (Z.ltb_spec 0 p) as [Hpos | Hzero]; [| reflexivity];
        unfold crop; rewrite Edf; simpl; rewrite Hs;
        unfold circular_pad_shape, conv2d_same_shape; rewrite Edf; shape4;
        rewrite !slice_len_crop_r by lia; reflexivity.
  (* the entries *)
  all: intros i0 i1 i2 i3; rewrite Hs; shape4; intros Hz Hy.
  all: set (layer := fst (layer_name "conv2d" path c)).
  all: destruct (Z.ltb_spec 0 p) as [Hpos | Hzero].
  1, 3: unfold crop; rewrite Edf;
        cbn [tf_getitem tf_layers_conv2d circular_pad ops Numeric.ops
             Numeric.ngetitem Numeric.ndata Numeric.nshape Numeric.nconv2d
             Numeric.conv2d_periodic Numeric.ncircular_pad String.eqb Ascii.eqb
             Bool.eqb];
        cbv iota; cbn [Numeric.ndata Numeric.nshape]; rewrite Hs;
        unfold circular_pad_shape, conv2d_same_shape; rewrite Edf; shape4;
        cbn [Numeric.getitem_index]; rewrite !slice_bound_inside by lia;
        unfold Numeric.conv_sum, data_axes; rewrite Edf, Hhalf;
        cbn [Numeric.nshape Numeric.ncircular_pad]; rewrite Hs;
        unfold circular_pad_shape; shape4.
  3, 4: replace p with 0 in * by lia;
        cbn [tf_layers_conv2d ops Numeric.ops Numeric.ndata Numeric.nshape
             Numeric.nconv2d Numeric.conv2d_periodic String.eqb Ascii.eqb
             Bool.eqb];
        cbv iota; cbn [Numeric.ndata Numeric.nshape];
        unfold Numeric.conv_sum, data_axes; rewrite Edf;
        change ((2 * 0 + 1 - 1) / 2) with 0; shape4.
  all: match goal with
       | |- (if _ then cadd ?s1 ?b1 else ?s1)
            = (if _ then cadd ?s2 ?b2 else ?s2) =>
           assert (Hsum : s1 = s2); [| by rewrite Hsum]
       end.
  all: apply sum_upto_ext; intros a Ha; apply sum_upto_ext; intros b Hb;
       apply sum_upto_ext; intros c0 Hc0; f_equal.
  1, 2: match goal with
        | |- Numeric.zero_padded _ _ [?a0; ?a1; ?a2; ?a3] ?z ?y ?ch
             = Numeric.wrapped _ _ [_; ?b1; ?b2; ?b3] _ _ _ =>
            pose proof (padded_source x p df a0 a1 a2 a3 b1 b2 b3 z y ch
                          d0 d1 d2 d3 Hs) as Hsrc
        end;
        unfold data_axes in Hsrc; rewrite Edf, Hs in Hsrc;
        revert Hsrc; shape4; intros Hsrc;
        rewrite Hsrc by lia; f_equal; lia.
  all: pose proof (inside_source x df [i0; i1; i2; i3]) as Hin;
       unfold data_axes in Hin; rewrite Edf, Hs in Hin;
       revert Hin; shape4; intros Hin; apply Hin; lia.
Qed.
End CircularConvolution.

(** ** The theorems at concrete inputs *)

#[global] Instance graph_shape_laws
    (forward_shape transpose_shape' : list Z → option (list Z) → list Z) :
  @ShapeLaws graph (Graph.ops forward_shape transpose_shape').
Proof. constructor; reflexivity. Qed.

(** C1 at the two-coil example, with the default arguments. *)
Lemma hard_projection_exact_witness :
  let ops := Gauss.ops Gauss.initial_params in
  let ks_input := Gauss.first_coil Gauss.one in
  let sensemap := Some (Gauss.all_coils Gauss.one) in
  let mask_output := Some (tf_constant 1) in
  hard_projection default_args = true
  ∧ let m := used_mask ks_input None in
    let st := state_after (Z.to_nat (num_grad_steps default_args)) ks_input
                sensemap default_args None "" in
    let predicted := model_forward (im_k st) sensemap in
    let '(im_out, ks_out, _) :=
      fst (unroll_ista ks_input sensemap default_args mask_output None "" ∅) in
    (∀ i, value_at m i = c1 →
          value_at ks_out i
          = cmul (value_at ks_input i) (output_scale mask_output i)
          ∧ value_at (masked_input ks_input None) i = value_at ks_input i)
    ∧ (∀ i, value_at m i = c0 →
            value_at ks_out i
            = cmul (value_at predicted i) (output_scale mask_output i))
    ∧ im_out = model_transpose ks_out sensemap.
Proof.
  intros ops ks_input sensemap mask_output. split; [reflexivity |].
  exact (hard_projection_exact (H := ops) ks_input sensemap default_args
           mask_output None "" ∅ eq_refl).
Defined.

(** C3 (amended) at a single-coil example: without sensitivity maps the
    forward transform of the initial image is the masked input, and the
    call returns the masked input and the initial image. *)
Lemma zero_steps_projection_witness :
  let ops := Gauss.ops Gauss.initial_params in
  let ks_input := Gauss.all_coils {| Gauss.re := 3; Gauss.im := 4 |} in
  let mask := Some (Gauss.first_coil Gauss.one) in
  let ks_0 := masked_input ks_input mask in
  let im_0 := model_transpose ks_0 None in
  num_grad_steps Gauss.zero_steps = 0
  ∧ hard_projection Gauss.zero_steps = true
  ∧ let '(im_out, ks_out, _) :=
      fst (unroll_ista ks_input None Gauss.zero_steps (Some (tf_constant 1))
             mask "" ∅) in
    ks_out = ks_0 ∧ im_out = im_0.
Proof.
  intros ops ks_input mask ks_0 im_0.
  split; [reflexivity |]. split; [reflexivity |].
  pose proof (zero_steps_projection (H := ops) ks_input None Gauss.zero_steps
                (Some (tf_constant 1)) mask "" ∅ eq_refl eq_refl) as W.
  cbv zeta in W.
  destruct (fst (unroll_ista ks_input None Gauss.zero_steps
                   (Some (tf_constant 1)) mask "" ∅)) as [[im_out ks_out] s].
  destruct W as (_ & _ & W). apply W.
  - intros i. simpl. destruct (py_index i 3 =? 0); auto.
  - by right.
  - reflexivity.
  - intros i. simpl. destruct (py_index i 3 =? 0); [discriminate | reflexivity].
Defined.


(** C4 at a two-channel input of 8 by 8, channels first, with two blocks
    and the kernel size 3. *)
Lemma prior_single_pad_witness :
  let ops := Graph.ops (λ s _, s) (λ s _, s) in
  let x := Placeholder "x" [1; 2; 8; 8] in
  0 ≤ 2 ∧ 1 ≤ 3
  ∧ let '(axis_z, axis_y, _) := data_axes "channels_first" in
    let p := py_floor ((inject_Z ((2 * 2 + 1) * (3 - 1)) + 0.5) / 2)%Q in
    let pad_z := CircularPad x p axis_z in
    let padded := CircularPad pad_z p axis_y in
    let z := (p, p + py_index (tf_shape x) axis_z) in
    let y := (p, p + py_index (tf_shape x) axis_y) in
    let '(net, net_dense) :=
      fst (prior_grad_res_net x 4 3 2 true "channels_first" true true true
             None "prior_grad_resnet" "" ∅) in
    ∃ c1 conv shortcut,
      let blocks :=
        fst (for_each (py_range 2)
               (λ _ n, _res_block n 4 3 "channels_first" false true true
                         "res_block")
               padded "" c1) in
      net_dense = crop blocks "channels_first" z y
      ∧ net = TfAdd (crop conv "channels_first" z y) shortcut
      ∧ (∀ n, n ∈ Graph.nodes net ∨ n ∈ Graph.nodes net_dense →
              Graph.is_circular_pad n = true →
              n = pad_z ∨ n = padded ∨ n ∈ Graph.nodes x)
      ∧ (∀ n, n ∈ Graph.nodes net → Graph.is_getitem n = true →
              n = crop conv "channels_first" z y ∨ n ∈ Graph.nodes x)
      ∧ (∀ n, n ∈ Graph.nodes net_dense → Graph.is_getitem n = true →
              n = net_dense ∨ n ∈ Graph.nodes x).
Proof.
  intros ops x. subst ops. split; [lia |]. split; [lia |].
  pose proof (prior_single_pad (λ s _, s) (λ s _, s) x 4 3 2 "channels_first"
                true true true None "prior_grad_resnet" "" ∅
                ltac:(lia) ltac:(lia)) as W.
  cbv beta iota in W. exact W.
Defined.


(** C5 at the 3 by 3 image with the kernel size 3. *)
Lemma conv2d_circular_witness :
  let nm := Gauss.numerics Gauss.initial_params in
  let ops := Numeric.ops nm in
  let x := Gauss.ramp in
  let layer := fst (layer_name "conv2d" "" ∅) in
  let out := fst (_conv2d x 1 3 "channels_last" true false "" ∅) in
  Numeric.nshape x = [1; 3; 3; 1] ∧ 0 ≤ 3 ∧ 0 ≤ 1 ∧ 3 = 2 * 1 + 1
  ∧ py_floor ((inject_Z 3 - 0.5) / 2)%Q = 1
  ∧ tf_shape out = [1; 3; 3; 1]
  ∧ (∀ i0 i1 i2 i3,
       0 ≤ i1 < 3 → 0 ≤ i2 < 3 →
       Numeric.ndata out [i0; i1; i2; i3]
       = Numeric.ndata
           (Numeric.conv2d_periodic nm layer x 1 3 false "channels_last")
           [i0; i1; i2; i3])
  ∧ Numeric.ndata out [0; 0; 0; 0] = Gauss.of_int 36.
Proof.
  intros nm ops x layer out.
  pose proof (conv2d_circular nm x 1 3 1 "channels_last" false "" ∅ 1 3 3 1
                eq_refl ltac:(lia) ltac:(lia) ltac:(lia) ltac:(lia) eq_refl)
    as (_ & Hpad & _ & Hshape & Hdata & _).
  split; [reflexivity |]. split; [lia |]. split; [lia |]. split; [lia |].
  split; [exact Hpad |]. split; [exact Hshape |]. split; [exact Hdata |].
  vm_compute. reflexivity.
Defined.

(** * Further properties of the network *)

(** ** Shapes *)

Lemma prior_pad_nonneg (B k : Z) :
  0 ≤ B → 1 ≤ k →
  0 ≤ py_int ((inject_Z ((B * 2 + 1) * (k - 1)) + 0.5) / 2)%Q.
Proof.
  intros HB Hk. rewrite py_int_plus_half. apply Z.quot_pos; nia.
Qed.

Lemma conv2d_same_shape4 (d0 d1 d2 d3 F : Z) (df : string) :
  ∃ e0 e1 e2 e3,
    conv2d_same_shape [d0; d1; d2; d3] F df = [e0; e1; e2; e3]
    ∧ py_index [e0; e1; e2; e3] (if String.eqb df "channels_last" then 3 else 1) = F.
Proof.
  unfold conv2d_same_shape. destruct (String.eqb df "channels_last"); shape4;
    eexists _, _, _, _; split; reflexivity.
Qed.

Section MoreShapes.
Context {T : Type} `{TensorOps T} {SL : ShapeLaws T}.

(** X1: [_conv2d] keeps the extent of a rank-4 input, for every kernel size
    and with or without the circular padding: the result has the shape of
    the input with [num_features] channels, so the crop undoes the two
    circular pads exactly. *)
Theorem conv2d_keeps_extent (x : T) (F k : Z) (df : string)
    (circ use_bias : bool) (path : string) (c : gmap string nat)
    (d0 d1 d2 d3 : Z) :
  tf_shape x = [d0; d1; d2; d3] →
  0 ≤ d1 → 0 ≤ d2 → 0 ≤ d3 →
  tf_shape (fst (_conv2d x F k df circ use_bias path c))
  = conv2d_same_shape (tf_shape x) F df.
Proof.
  intros Hs H1 H2 H3. unfold _conv2d.
  destruct (String.eqb df "channels_last") eqn:Edf; build_unfold; cbn [fst];
    rewrite Hs; shape4.
  all: unfold layer_name; cbn [fst snd].
  all: destruct (circ && (0 <? _)) eqn:Ep; [| by rewrite shape_conv2d, Hs].
  all: apply andb_prop in Ep as [_ Hp]; apply Z.ltb_lt in Hp.
  all: unfold crop; rewrite Edf, shape_getitem, shape_conv2d,
         !shape_circular_pad, Hs.
  all: unfold circular_pad_shape, conv2d_same_shape; rewrite Edf; shape4.
  all: rewrite !slice_len_crop_r by lia; reflexivity.
Qed.

Lemma res_block_plain_shape (x : T) (F k : Z) (df : string) (bn tr : bool)
    (name path : string) (c : gmap string nat) (d0 d1 d2 d3 : Z) :
  tf_shape x = [d0; d1; d2; d3] →
  tf_shape (fst (_res_block x F k df false bn tr name path c))
  = conv2d_same_shape (tf_shape x) F df.
Proof.
  intros Hs.
  pose proof (res_block_unfold x F k df false bn tr name path c) as Hun.
  unfold data_axes in Hun.
  destruct (String.eqb df "channels_last") eqn:Edf; cbv zeta in Hun;
    rewrite Hun; clear Hun; cbn [fst snd]; rewrite shape_add, shape_conv2d,
      batch_norm_relu_shape, shape_conv2d, batch_norm_relu_shape,
      conv2d_same_shape_twice.
  all: match goal with
       | |- broadcast_shape ?s (tf_shape ?sc) = _ =>
           assert (Hsc : tf_shape sc = s); [| by rewrite Hsc, broadcast_shape_idem]
       end.
  all: rewrite Hs; shape4.
  all: match goal with
       | |- context [ negb (_ =? ?ch) ] => destruct (Z.eqb_spec F ch) as [-> | Hne]
       end; cbn [negb].
  all: try (rewrite conv2d_plain; cbn [fst]; by rewrite shape_conv2d, Hs).
  all: unfold mret, build_ret; cbn [fst]; rewrite Hs;
       unfold conv2d_same_shape; rewrite Edf; by shape4.
Qed.

Lemma blocks_shape (l : list nat) (x : T) (F k : Z) (df : string)
    (bn tr : bool) (path : string) (c : gmap string nat) (d0 d1 d2 d3 : Z) :
  tf_shape x = [d0; d1; d2; d3] →
  tf_shape (fst (for_each l (λ _ net, _res_block net F k df false bn tr "res_block")
                   x path c))
  = match l with
    | [] => tf_shape x
    | _ => conv2d_same_shape (tf_shape x) F df
    end.
Proof.
  revert x c d0 d1 d2 d3.
  induction l as [|i l IH]; intros x c d0 d1 d2 d3 Hs; [reflexivity |].
  simpl. build_unfold.
  pose proof (res_block_plain_shape x F k df bn tr "res_block" path c
                d0 d1 d2 d3 Hs) as H1.
  destruct (_res_block x F k df false bn tr "res_block" path c) as [x1 c1].
  cbn [fst] in H1.
  destruct (conv2d_same_shape4 d0 d1 d2 d3 F df) as (e0 & e1 & e2 & e3 & He & _).
  rewrite Hs, He in H1. rewrite (IH x1 c1 e0 e1 e2 e3 H1).
  destruct l; rewrite H1, ?Hs, <- ?He, ?conv2d_same_shape_twice; reflexivity.
Qed.

Lemma prior_result_shapes (x : T) (F k B : Z) (circ : bool) (df : string)
    (resid bn tr : bool) (nfo : option Z) (name path : string)
    (c : gmap string nat) (d0 d1 d2 d3 : Z) :
  tf_shape x = [d0; d1; d2; d3] →
  (let '(axis_z, axis_y, _) := data_axes df in
   0 ≤ py_index [d0; d1; d2; d3] axis_z ∧ 0 ≤ py_index [d0; d1; d2; d3] axis_y) →
  (circ = true → 0 ≤ B ∧ 1 ≤ k) →
  let '(_, _, axis_c) := data_axes df in
  let n_out := default (py_index (tf_shape x) axis_c) nfo in
  let r := fst (prior_grad_res_net x F k B circ df resid bn tr nfo name path c) in
  tf_shape (fst r) = conv2d_same_shape (tf_shape x) n_out df
  ∧ tf_shape (snd r)
    = (if 0 <? B then conv2d_same_shape (tf_shape x) F df else tf_shape x).
Proof.
  intros Hs Hdims Hcirc.
  pose proof (prior_unfold x F k B circ df resid bn tr nfo name path c) as Hun.
  unfold data_axes in *.
  assert (Hl : match py_range B with
               | [] => (0 <? B) = false
               | _ => (0 <? B) = true
               end).
  { unfold py_range. destruct (Z.ltb_spec 0 B) as [Hp | Hp].
    - destruct (Z.to_nat B) eqn:E; [lia | reflexivity].
    - replace (Z.to_nat B) with 0%nat by lia. reflexivity. }
  destruct (String.eqb df "channels_last") eqn:Edf; cbv zeta in *;
    rewrite Hun; clear Hun; cbn [fst snd]; rewrite Hs;
    revert Hdims; shape4; intros [Hz Hy].
  all: set (n_out := default _ nfo).
  all: set (P := py_int _) in *.
  all: assert (HP : circ = true → 0 ≤ P)
         by (intros Hc; destruct (Hcirc Hc); by apply prior_pad_nonneg).
  all: destruct circ; cbv iota.
  all: match goal with
       | |- context [ for_each ?l ?body ?x0 ?p ?c1 ] =>
           set (blocks := for_each l body x0 p c1);
           eassert (Hx0 : tf_shape x0 = [_; _; _; _])
             by (rewrite ?shape_circular_pad, Hs;
                 unfold circular_pad_shape; shape4; reflexivity);
           pose proof (blocks_shape l x0 F k df bn tr p c1 _ _ _ _ Hx0) as Hb;
           fold blocks in Hb; rewrite Hx0 in Hb
       end.
  all: assert (Hconv : ∀ s a b, conv2d_same_shape (conv2d_same_shape s a df) b df
                                = conv2d_same_shape s b df)
         by (intros s a b; unfold conv2d_same_shape, set_dim;
             rewrite length_insert; apply list_insert_insert_eq).
  all: assert (Hsc : resid = true →
                     tf_shape (fst ((if resid && negb (_ =? n_out)
                                     then _conv2d x n_out 1 df false (negb bn)
                                     else mret x) path c))
                     = conv2d_same_shape [d0; d1; d2; d3] n_out df)
         by (intros ->; cbn [andb];
             match goal with
             | |- context [ negb (?ch =? _) ] =>
                 destruct (Z.eqb_spec ch n_out) as [E | Hne]
             end; cbn [negb];
             [ unfold mret, build_ret; cbn [fst]; rewrite Hs, <- E;
               unfold conv2d_same_shape; rewrite Edf; by shape4
             | rewrite conv2d_plain; cbn [fst]; by rewrite shape_conv2d, Hs ]).
  all: split.
  (* the output *)
  1, 3, 5, 7:
    match goal with
    | |- tf_shape (if _ then tf_add ?net _ else ?net) = ?s =>
        assert (Hnet : tf_shape net = s);
        [| destruct resid;
           [by rewrite shape_add, Hnet, Hsc, broadcast_shape_idem
           | exact Hnet]]
    end;
    unfold crop; rewrite ?Edf, ?shape_getitem, shape_conv2d,
      batch_norm_relu_shape, Hb;
    destruct (py_range B); rewrite ?Hconv;
    unfold conv2d_same_shape; rewrite Edf; shape4;
    rewrite ?slice_len_crop by (specialize (HP eq_refl); lia); reflexivity.
  (* the dense output *)
  all: unfold crop; rewrite ?Edf, ?shape_getitem, Hb;
       destruct (py_range B); rewrite Hl;
       unfold conv2d_same_shape; rewrite ?Edf; shape4;
       rewrite ?slice_len_crop by (specialize (HP eq_refl); lia); reflexivity.
Qed.

(** X2: the two results of [prior_grad_res_net] on a rank-4 input: the
    output has the shape of the input with [num_features_out] channels (the
    channels of the input when [num_features_out] is [None]); the dense
    output has the shape of the input, with [num_features] channels when
    there is at least one block and with the channels of the input
    otherwise. *)
Theorem prior_shapes (x : T) (F k B : Z) (circ : bool) (df : string)
    (resid bn tr : bool) (nfo : option Z) (name path : string)
    (c : gmap string nat) (d0 d1 d2 d3 : Z) :
  tf_shape x = [d0; d1; d2; d3] →
  0 ≤ d1 → 0 ≤ d2 → 0 ≤ d3 →
  (circ = true → 0 ≤ B ∧ 1 ≤ k) →
  let '(_, _, axis_c) := data_axes df in
  let n_out := default (py_index (tf_shape x) axis_c) nfo in
  let '(net, net_dense) :=
    fst (prior_grad_res_net x F k B circ df resid bn tr nfo name path c) in
  tf_shape net = conv2d_same_shape (tf_shape x) n_out df
  ∧ tf_shape net_dense
    = (if 0 <? B then conv2d_same_shape (tf_shape x) F df else tf_shape x).
Proof.
  intros Hs H1 H2 H3 Hcirc.
  pose proof (prior_result_shapes x F k B circ df resid bn tr nfo name path c
                d0 d1 d2 d3 Hs) as Haux.
  unfold data_axes in *.
  destruct (String.eqb df "channels_last"); cbv zeta in *;
    destruct (fst (prior_grad_res_net x F k B circ df resid bn tr nfo name
                     path c)) as [net net_dense];
    apply Haux; [| exact Hcirc | | exact Hcirc]; split; assumption.
Qed.

End MoreShapes.

(** ** Layers created *)

Lemma layer_name_created (base base' path : string) (c : gmap string nat) :
  layers_created (snd (layer_name base path c)) base'
  = if String.eqb base base' then S (layers_created c base')
    else layers_created c base'.
Proof.
  unfold layer_name, layers_created. cbn [snd].
  destruct (String.eqb_spec base base') as [-> | Hne].
  - by rewrite lookup_insert_eq.
  - by rewrite lookup_insert_ne.
Qed.

Section Counts.
Context {T : Type} `{TensorOps T}.

Lemma conv2d_created (x : T) F k df circ b path c base :
  layers_created (snd (_conv2d x F k df circ b path c)) base
  = if String.eqb "conv2d" base then S (layers_created c base)
    else layers_created c base.
Proof.
  unfold _conv2d. destruct (String.eqb df "channels_last"); build_unfold;
    rewrite <- layer_name_created with (path := path);
    by destruct (layer_name "conv2d" path c).
Qed.

Lemma batch_norm_relu_created (x : T) df bn tr path c base :
  layers_created (snd (_batch_norm_relu x df bn tr path c)) base
  = if bn && String.eqb "batch_normalization" base
    then S (layers_created c base) else layers_created c base.
Proof.
  unfold _batch_norm_relu, _batch_norm. build_unfold. destruct bn; cbn [andb].
  - rewrite <- layer_name_created with (path := path).
    by destruct (layer_name "batch_normalization" path c).
  - reflexivity.
Qed.

End Counts.

Ltac count_layers :=
  repeat first
    [ rewrite layer_name_created
    | rewrite conv2d_created
    | rewrite batch_norm_relu_created ];
  change (String.eqb "conv2d" "conv2d") with true;
  change (String.eqb "batch_normalization" "batch_normalization") with true;
  change (String.eqb "conv2d" "batch_normalization") with false;
  change (String.eqb "batch_normalization" "conv2d") with false;
  rewrite ?andb_true_r, ?andb_false_r; cbv iota.

Section PriorCounts.
Context {T : Type} `{TensorOps T} {SL : ShapeLaws T}.

Lemma res_block_created (x : T) (F k : Z) (df : string) (circ bn tr : bool)
    (name path : string) (c : gmap string nat) :
  let '(_, _, axis_c) := data_axes df in
  let c' := snd (_res_block x F k df circ bn tr name path c) in
  layers_created c' "conv2d"
  = (layers_created c "conv2d" + 2
     + if (F =? py_index (tf_shape x) axis_c)%Z then 0 else 1)%nat
  ∧ layers_created c' "batch_normalization"
    = (layers_created c "batch_normalization" + if bn then 2 else 0)%nat.
Proof.
  pose proof (res_block_unfold x F k df circ bn tr name path c) as Hun.
  unfold data_axes in *.
  destruct (String.eqb df "channels_last"); cbv zeta in *; rewrite Hun;
    clear Hun; cbn [snd].
  all: match goal with
       | |- context [ negb (_ =? ?ch) ] => destruct (F =? ch)
       end; cbn [negb]; unfold mret, build_ret; cbn [snd];
       count_layers; destruct bn; split; lia.
Qed.

Lemma blocks_created (l : list nat) (x : T) (F k : Z) (df : string)
    (bn tr : bool) (path : string) (c : gmap string nat) (d0 d1 d2 d3 : Z) :
  tf_shape x = [d0; d1; d2; d3] →
  let '(_, _, axis_c) := data_axes df in
  let c' :=
    snd (for_each l (λ _ net, _res_block net F k df false bn tr "res_block")
           x path c) in
  layers_created c' "conv2d"
  = (layers_created c "conv2d" + 2 * length l
     + match l with
       | [] => 0
       | _ => if (F =? py_index (tf_shape x) axis_c)%Z then 0 else 1
       end)%nat
  ∧ layers_created c' "batch_normalization"
    = (layers_created c "batch_normalization"
       + if bn then 2 * length l else 0)%nat.
Proof.
  revert x c d0 d1 d2 d3.
  induction l as [|i l IH]; intros x c d0 d1 d2 d3 Hs.
  - unfold data_axes. destruct (String.eqb df "channels_last"); cbv zeta;
      simpl; destruct bn; split; lia.
  - pose proof (res_block_created x F k df false bn tr "res_block" path c) as Hr.
    pose proof (res_block_plain_shape x F k df bn tr "res_block" path c
                  d0 d1 d2 d3 Hs) as Hshape.
    destruct (conv2d_same_shape4 d0 d1 d2 d3 F df)
      as (e0 & e1 & e2 & e3 & He & Hch).
    rewrite Hs, He in Hshape.
    simpl for_each. build_unfold.
    destruct (_res_block x F k df false bn tr "res_block" path c) as [x1 c1].
    cbn [fst snd] in Hr, Hshape.
    specialize (IH x1 c1 e0 e1 e2 e3 Hshape).
    unfold data_axes in *.
    destruct (String.eqb df "channels_last"); cbv zeta in *;
      rewrite Hshape, Hch, Z.eqb_refl in IH;
      destruct Hr as [Hr1 Hr2]; destruct IH as [IH1 IH2];
      rewrite IH1, IH2, Hr1, Hr2; cbn [length];
      destruct l, bn; split; lia.
Qed.

(** X3: the layers [prior_grad_res_net] creates in its variable scope:
    two convolutions per block and the final one, one more for the shortcut
    of the network when it is residual and changes the number of channels,
    one more for the shortcut of the first block when [num_features] is not
    the number of channels of the input; with [batchnorm] two batch
    normalisations per block and one more, and none without. *)
Theorem prior_layers (x : T) (F k B : Z) (circ : bool) (df : string)
    (resid bn tr : bool) (nfo : option Z) (name path : string)
    (c : gmap string nat) (d0 d1 d2 d3 : Z) :
  tf_shape x = [d0; d1; d2; d3] →
  let '(_, _, axis_c) := data_axes df in
  let n_in := py_index (tf_shape x) axis_c in
  let n_out := default n_in nfo in
  let blocks := Z.to_nat B in
  let c' :=
    snd (prior_grad_res_net x F k B circ df resid bn tr nfo name path c) in
  layers_created c' "conv2d"
  = (layers_created c "conv2d" + (2 * blocks + 1)
     + (if resid && negb (n_in =? n_out)%Z then 1 else 0)
     + (if (0 <? B)%Z && negb (F =? n_in)%Z then 1 else 0))%nat
  ∧ layers_created c' "batch_normalization"
    = (layers_created c "batch_normalization"
       + if bn then 2 * blocks + 1 else 0)%nat.
Proof.
  intros Hs.
  pose proof (prior_unfold x F k B circ df resid bn tr nfo name path c) as Hun.
  unfold data_axes in *.
  destruct (String.eqb df "channels_last") eqn:Edf; cbv zeta in *;
    rewrite Hun; clear Hun; cbn [snd]; rewrite Hs; shape4.
  all: set (n_out := default _ nfo).
  all: set (P := py_int _) in *.
  all: destruct circ; cbv iota.
  all: match goal with
       | |- context [ for_each ?l ?body ?x0 ?p ?c1 ] =>
           eassert (Hx0 : tf_shape x0 = [_; _; _; _])
             by (rewrite ?shape_circular_pad, Hs;
                 unfold circular_pad_shape; shape4; reflexivity);
           pose proof (blocks_created l x0 F k df bn tr p c1 _ _ _ _ Hx0) as Hb;
           unfold data_axes in Hb; rewrite Edf, Hx0 in Hb; cbv zeta in Hb;
           revert Hb; shape4; intros [Hb1 Hb2]
       end.
  all: count_layers; rewrite Hb1, Hb2.
  all: assert (Hlen : length (py_range B) = Z.to_nat B)
         by (unfold py_range; apply length_seq);
       rewrite Hlen.
  all: assert (Hl : match py_range B with
                    | [] => (0 <? B) = false
                    | _ => (0 <? B) = true
                    end)
         by (unfold py_range; destruct (Z.ltb_spec 0 B) as [Hp | Hp];
             [ destruct (Z.to_nat B) eqn:E; [lia | reflexivity]
             | replace (Z.to_nat B) with 0%nat by lia; reflexivity ]).
  all: destruct (py_range B); rewrite Hl; cbn [andb].
  all: match goal with
       | |- context [ (if ?b then _conv2d _ _ _ _ _ _ else _) _ _ ] =>
           destruct b
       end; unfold mret, build_ret; cbn [snd]; count_layers.
  all: match goal with
       | |- context [ negb (?f =? ?ch) ] => destruct (f =? ch)
       | _ => idtac
       end; cbn [negb]; destruct bn; split; lia.
Qed.

End PriorCounts.

(** ** The loop *)

Section MoreLoop.
Context {T : Type} `{TensorOps T}.

Lemma prox_block_dense (a : ista_args) (estimate : T) (dense : option T)
    (path : string) (c : gmap string nat) :
  do_dense a = false → snd (fst (prox_block a estimate dense path c)) = dense.
Proof.
  intros E. unfold prox_block. build_unfold.
  destruct (prior_grad_res_net _ _ _ _ _ _ _ _ _ _ _ _ _) as [[net d] c'].
  cbn [fst snd]. by rewrite E.
Qed.

Lemma prox_block_dense_on (a : ista_args) (estimate : T) (dense : option T)
    (path : string) (c : gmap string nat) :
  do_dense a = true → is_Some (snd (fst (prox_block a estimate dense path c))).
Proof.
  intros E. unfold prox_block. build_unfold.
  destruct (prior_grad_res_net _ _ _ _ _ _ _ _ _ _ _ _ _) as [[net d] c'].
  cbn [fst snd]. rewrite E. by destruct dense.
Qed.

(** X4: the dense accumulator [im_dense] of [unroll_ista] is [None]
    exactly when [do_dense] is off or no iteration has run. *)
Theorem dense_accumulator (ks_input : T) (sensemap : option T)
    (a : ista_args) (mask : option T) (path : string) (n : nat) :
  im_dense (state_after n ks_input sensemap a mask path) = None
  ↔ do_dense a = false ∨ n = 0%nat.
Proof.
  split.
  - destruct n as [|n]; [by right |]. intros E. left.
    rewrite state_after_S, iteration_unfold in E. cbv zeta in E.
    cbn [fst im_dense] in E.
    destruct (do_dense a) eqn:Ed; [| done].
    pose proof (prox_block_dense_on a) as Hon.
    match type of E with
    | snd (fst (prox_block _ ?e ?d ?p ?c)) = None =>
        destruct (Hon e d p c Ed) as [v Hv]; congruence
    end.
  - intros [Ed | ->]; [| reflexivity].
    induction n as [|n IH]; [reflexivity |].
    rewrite state_after_S, iteration_unfold. cbv zeta. cbn [fst im_dense].
    by rewrite prox_block_dense.
Qed.

(** X5: with [resblock_share] the body of the loop does not depend on the
    index of the iteration: from the same loop variables any two iterations
    build the same k-space, image and dense accumulator, variable and layer
    names included. *)
Theorem shared_iterations (a : ista_args) (sensemap : option T) (mask im_0 : T)
    (i j : nat) (st : ista_state T) (path : string) (c : gmap string nat) :
  resblock_share a = true →
  let r := fst (iteration a sensemap mask im_0 i st path c) in
  let r' := fst (iteration a sensemap mask im_0 j st path c) in
  ks_k r = ks_k r' ∧ im_k r = im_k r' ∧ im_dense r = im_dense r'.
Proof.
  intros E. rewrite !iteration_unfold. cbv zeta. cbn [fst ks_k im_k im_dense].
  unfold scope_name. rewrite E. done.
Qed.

(** X6: without [hard_projection], [unroll_ista] returns the last image
    estimate and its forward transform, both only renamed; the image is the
    last entry of the diagnostics; and [mask_output] is not used at all. *)
Theorem no_projection (ks_input : T) (sensemap : option T) (a : ista_args)
    (mask_output mask : option T) (path : string) (c : gmap string nat) :
  hard_projection a = false →
  let n := Z.to_nat (num_grad_steps a) in
  let last := im_k (state_after n ks_input sensemap a mask path) in
  let '(im_out, ks_out, summary) :=
    fst (unroll_ista ks_input sensemap a mask_output mask path c) in
  im_out = tf_identity last "output_image"
  ∧ ks_out = tf_identity (model_forward last sensemap) "output_kspace"
  ∧ (∀ i, n = S i → summary !! iter_name i = Some last)
  ∧ ∀ mask_output' c',
      fst (unroll_ista ks_input sensemap a mask_output' mask path c')
      = (im_out, ks_out, summary).
Proof.
  intros Eh n last. rewrite unroll_ista_run, Eh. cbv zeta.
  split; [reflexivity |]. split; [reflexivity |]. split.
  - intros i Hi. subst last. fold n. rewrite Hi. apply summary_lookup. lia.
  - intros mo' c'. by rewrite unroll_ista_run, Eh.
Qed.

(** X7: with [num_grad_steps <= 0] the loop of [unroll_ista] does not run:
    the diagnostics are empty and no other argument of the network matters
    but [hard_projection]. *)
Theorem no_iterations (ks_input : T) (sensemap : option T) (a a' : ista_args)
    (mask_output mask : option T) (path path' : string)
    (c c' : gmap string nat) :
  num_grad_steps a ≤ 0 → num_grad_steps a' ≤ 0 →
  hard_projection a = hard_projection a' →
  snd (fst (unroll_ista ks_input sensemap a mask_output mask path c)) = ∅
  ∧ fst (unroll_ista ks_input sensemap a mask_output mask path c)
    = fst (unroll_ista ks_input sensemap a' mask_output mask path' c').
Proof.
  intros Hn Hn' Eh. rewrite !unroll_ista_run, <- Eh.
  replace (Z.to_nat (num_grad_steps a)) with 0%nat by lia.
  replace (Z.to_nat (num_grad_steps a')) with 0%nat by lia.
  unfold state_after. cbn [seq for_each]. build_unfold. cbn [fst].
  by destruct (hard_projection a).
Qed.

End MoreLoop.

Section MoreValues.
Context {T C : Type} `{TensorOps T} `{Scalar C} `{Valued T C}.
Context {SL : ScalarLaws C} {VL : ValueLaws T C}.


End MoreValues.

(** ** Layout *)

#[global] Instance graph_layout_laws
    (forward_shape transpose_shape' : list Z → option (list Z) → list Z) :
  @LayoutLaws graph (Graph.ops forward_shape transpose_shape').
Proof. split; reflexivity. Qed.

#[global] Instance numeric_layout_laws {C : Type} `{Scalar C}
    (nm : Numeric.numerics C) :
  @LayoutLaws (Numeric.ntensor C) (Numeric.ops nm).
Proof. split; reflexivity. Qed.

Section Prox.
Context {T : Type} `{TensorOps T} {SL : ShapeLaws T} {LL : LayoutLaws T}.

(** X9: the prox block of an iteration gives back an estimate of the shape
    it was given: the prior network runs between the change of layout to
    channels first and the one back, with or without a dense accumulator
    joined to its input, and its output has the channels of the estimate. *)
Theorem prox_block_keeps_shape (a : ista_args) (estimate : T)
    (dense : option T) (path : string) (c : gmap string nat)
    (d0 d1 d2 d3 : Z) :
  tf_shape estimate = [d0; d1; d2; d3] →
  0 ≤ d1 → 0 ≤ d2 →
  (circular a = true → 0 ≤ resblock_num_blocks a) →
  ∃ y, fst (fst (prox_block a estimate dense path c)) = channels_to_complex y
       ∧ tf_shape y = tf_shape estimate.
Proof.
  intros Hs H1 H2 Hc.
  rewrite prox_block_unfold. cbv zeta.
  eexists; split; [reflexivity |].
  rewrite shape_transpose.
  set (net_in := match dense with Some d => _ | None => _ end).
  assert (∃ ch, tf_shape net_in = [d0; ch; d1; d2]) as [ch Hin].
  { subst net_in. destruct dense as [d |].
    - rewrite shape_concat, shape_transpose, Hs.
      unfold concat_shape, transpose_shape. cbn [map]. shape4.
      eexists; reflexivity.
    - rewrite shape_transpose, Hs. unfold transpose_shape. cbn [map]. shape4.
      eexists; reflexivity. }
  pose proof (prior_result_shapes net_in (resblock_num_features a) 3
                (resblock_num_blocks a) (circular a) "channels_first" true
                (batchnorm a) (training a)
                (Some (py_index (tf_shape estimate) (-1))) "prior_grad_resnet"
                path c d0 ch d1 d2 Hin) as Hp.
  unfold data_axes in Hp.
  change (String.eqb "channels_first" "channels_last") with false in Hp.
  cbv iota zeta in Hp.
  destruct Hp as [Hp _].
  - split; assumption.
  - intros E. split; [auto | lia].
  - rewrite Hp, Hin, Hs. unfold conv2d_same_shape, transpose_shape.
    change (String.eqb "channels_first" "channels_last") with false.
    cbn [default map]. shape4. reflexivity.
Qed.
End Prox.

Section Layout.
Context {C : Type} `{Scalar C}.
Variable nm : Numeric.numerics C.
Let ops : TensorOps (Numeric.ntensor C) := Numeric.ops nm.
Existing Instance ops.

(** X10: the two changes of layout of the prox block, over exact tensors:
    [tf.transpose(x, [0, 3, 1, 2])] moves the channels to the axis 1, and
    [tf.transpose(..., [0, 2, 3, 1])] undoes it, in shape and entry by
    entry. *)
Theorem layout_round_trip (x : Numeric.ntensor C) (d0 d1 d2 d3 : Z)
    (b ch z y : Z) :
  Numeric.nshape x = [d0; d1; d2; d3] →
  let first := tf_transpose x [0; 3; 1; 2] in
  let back := tf_transpose first [0; 2; 3; 1] in
  tf_shape first = [d0; d3; d1; d2]
  ∧ Numeric.ndata first [b; ch; z; y] = Numeric.ndata x [b; z; y; ch]
  ∧ tf_shape back = Numeric.nshape x
  ∧ Numeric.ndata back [b; z; y; ch] = Numeric.ndata x [b; z; y; ch].
Proof.
  intros Hs first back. subst first back. cbn [tf_shape tf_transpose ops Numeric.ops].
  unfold Numeric.ntranspose. cbn [Numeric.nshape Numeric.ndata].
  rewrite Hs. repeat split; reflexivity.
Qed.
End Layout.

(** ** The operations of the network *)

Section Nodes.
Variable a : ista_args.
Variable old : graph → Prop.
Let ok (n : graph) : Prop := layer_conforms a n ∨ old n.

Lemma every_node_old (g : graph) : (∀ n, n ∈ Graph.nodes g → old n) → every_node ok g.
Proof. intros Hg n Hn. right. by apply Hg. Qed.

Lemma every_node_0 (g : graph) :
  Graph.nodes g = [g] → layer_conforms a g → every_node ok g.
Proof.
  intros E Hg n Hn. rewrite E in Hn.
  apply elem_of_cons in Hn as [-> | Hn]; [by left | by apply elem_of_nil in Hn].
Qed.

Lemma every_node_1 (g y : graph) :
  Graph.nodes g = g :: Graph.nodes y → layer_conforms a g →
  every_node ok y → every_node ok g.
Proof.
  intros E Hg Hy n Hn.
  rewrite E in Hn.
  apply elem_of_cons in Hn as [-> | Hn]; [by left | by apply Hy].
Qed.

Lemma every_node_2 (g x y : graph) :
  Graph.nodes g = g :: (Graph.nodes x ++ Graph.nodes y)%list →
  layer_conforms a g →
  every_node ok x → every_node ok y → every_node ok g.
Proof.
  intros E Hg Hx Hy n Hn.
  rewrite E in Hn.
  apply elem_of_cons in Hn as [-> | Hn]; [by left |].
  apply elem_of_app in Hn as [Hn | Hn]; [by apply Hx | by apply Hy].
Qed.

Lemma every_node_sensing (g x : graph) (sm : option graph) :
  Graph.nodes g
  = g :: (Graph.nodes x
          ++ match sm with Some s => Graph.nodes s | None => [] end)%list →
  layer_conforms a g →
  every_node ok x → (∀ s, sm = Some s → every_node ok s) → every_node ok g.
Proof.
  intros E Hg Hx Hs n Hn.
  rewrite E in Hn.
  apply elem_of_cons in Hn as [-> | Hn]; [by left |].
  apply elem_of_app in Hn as [Hn | Hn]; [by apply Hx |].
  destruct sm as [s |]; [by apply (Hs s) | by apply elem_of_nil in Hn].
Qed.

End Nodes.

(** Splits [every_node ok g] along the operation at the head of [g]. *)
Ltac node :=
  lazymatch goal with
  | |- every_node _ ?g =>
      let g' := eval hnf in g in
      lazymatch g' with
      | Constant _ => apply every_node_0; [reflexivity |]
      | GetVariable _ _ => apply every_node_0; [reflexivity |]
      | TfAdd ?u ?v =>
          apply every_node_2 with (x := u) (y := v); [reflexivity | | |]
      | TfSubtract ?u ?v =>
          apply every_node_2 with (x := u) (y := v); [reflexivity | | |]
      | TfMultiply ?u ?v =>
          apply every_node_2 with (x := u) (y := v); [reflexivity | | |]
      | Concat ?u ?v _ =>
          apply every_node_2 with (x := u) (y := v); [reflexivity | | |]
      | ModelForward ?u ?s =>
          apply every_node_sensing with (x := u) (sm := s); [reflexivity | | |]
      | ModelTranspose ?u ?s =>
          apply every_node_sensing with (x := u) (sm := s); [reflexivity | | |]
      | Identity ?u _ => apply every_node_1 with (y := u); [reflexivity | |]
      | Transpose ?u _ => apply every_node_1 with (y := u); [reflexivity | |]
      | GetItem ?u _ => apply every_node_1 with (y := u); [reflexivity | |]
      | Relu ?u => apply every_node_1 with (y := u); [reflexivity | |]
      | BatchNormalization _ ?u _ _ =>
          apply every_node_1 with (y := u); [reflexivity | |]
      | Conv2D _ ?u _ _ _ _ _ =>
          apply every_node_1 with (y := u); [reflexivity | |]
      | CircularPad ?u _ _ => apply every_node_1 with (y := u); [reflexivity | |]
      | KspaceMask ?u => apply every_node_1 with (y := u); [reflexivity | |]
      | ComplexToChannels ?u =>
          apply every_node_1 with (y := u); [reflexivity | |]
      | ChannelsToComplex ?u =>
          apply every_node_1 with (y := u); [reflexivity | |]
      end
  end.

Section Vocabulary.
Variables forward_shape transpose_shape' : list Z → option (list Z) → list Z.
Let ops : TensorOps graph := Graph.ops forward_shape transpose_shape'.
#[local] Existing Instance ops.

Variable a : ista_args.
Variable old : graph → Prop.
Let ok (n : graph) : Prop := layer_conforms a n ∨ old n.

Lemma every_node_batch_norm_relu (y : graph) (path : string) (c : gmap string nat) :
  every_node ok y →
  every_node ok (fst (_batch_norm_relu y "channels_first" (batchnorm a) (training a)
                        path c)).
Proof.
  intros Hy. unfold _batch_norm_relu, _batch_norm. build_unfold.
  destruct (batchnorm a) eqn:Ebn; simpl.
  - node; [exact I |]. node; [| exact Hy]. simpl. by rewrite Ebn.
  - node; [exact I | exact Hy].
Qed.

Lemma every_node_conv2d (y : graph) (F k : Z) (path : string) (c : gmap string nat) :
  k = 3 ∨ k = 1 → every_node ok y →
  every_node ok (fst (_conv2d y F k "channels_first" false (negb (batchnorm a)) path c)).
Proof.
  intros Hk Hy. rewrite conv2d_plain. cbn [fst].
  node; [| exact Hy]. simpl. done.
Qed.

Lemma every_node_res_block (y : graph) (F : Z) (name path : string)
    (c : gmap string nat) :
  every_node ok y →
  every_node ok (fst (_res_block y F 3 "channels_first" false (batchnorm a)
                        (training a) name path c)).
Proof.
  intros Hy.
  pose proof (res_block_unfold y F 3 "channels_first" false (batchnorm a)
                (training a) name path c) as Hun.
  unfold data_axes in Hun.
  change (String.eqb "channels_first" "channels_last") with false in Hun.
  cbv iota zeta in Hun. rewrite Hun. cbn [fst].
  node; [exact I | |].
  - node; [simpl; auto |]. apply every_node_batch_norm_relu.
    node; [simpl; auto |]. by apply every_node_batch_norm_relu.
  - destruct (negb _); [apply every_node_conv2d; auto | exact Hy].
Qed.

Lemma every_node_blocks (l : list nat) (y : graph) (F : Z) (path : string)
    (c : gmap string nat) :
  every_node ok y →
  every_node ok
    (fst (for_each l (λ _ n, _res_block n F 3 "channels_first" false (batchnorm a)
                               (training a) "res_block") y path c)).
Proof.
  revert y c. induction l as [|i l IH]; intros y c Hy; simpl; [done |].
  build_unfold.
  pose proof (every_node_res_block y F "res_block" path c Hy) as Hr.
  destruct (_res_block _ _ _ _ _ _ _ _ _ _) as [y' c']. by apply IH.
Qed.

Lemma every_node_crop (y : graph) (z yy : Z * Z) :
  circular a = true → every_node ok y →
  every_node ok (crop y "channels_first" z yy).
Proof.
  intros Hc Hy. unfold crop.
  change (String.eqb "channels_first" "channels_last") with false. cbv iota.
  node; [exact Hc | exact Hy].
Qed.

Lemma every_node_prior (x : graph) (nfo : option Z) (name path : string)
    (c : gmap string nat) :
  every_node ok x →
  let r := fst (prior_grad_res_net x (resblock_num_features a) 3
                  (resblock_num_blocks a) (circular a) "channels_first" true
                  (batchnorm a) (training a) nfo name path c) in
  every_node ok (fst r) ∧ every_node ok (snd r).
Proof.
  intros Hx.
  pose proof (prior_unfold x (resblock_num_features a) 3 (resblock_num_blocks a)
                (circular a) "channels_first" true (batchnorm a) (training a)
                nfo name path c) as Hun.
  unfold data_axes in Hun.
  change (String.eqb "channels_first" "channels_last") with false in Hun.
  cbv iota zeta in Hun. cbv zeta. rewrite Hun. clear Hun. cbn [fst snd].
  set (pad := py_int _).
  assert (Hx0 : every_node ok
                  (if circular a
                   then circular_pad (circular_pad x pad 2) pad 3 else x)).
  { destruct (circular a) eqn:Ec; [| exact Hx].
    node; [simpl; rewrite Ec; auto |]. node; [simpl; rewrite Ec; auto |].
    exact Hx. }
  match goal with
  | |- context [ for_each ?l ?body ?x0 ?p ?c1 ] =>
      pose proof (every_node_blocks l x0 (resblock_num_features a) p c1 Hx0)
        as Hb;
      set (blocks := for_each l body x0 p c1) in *
  end.
  split.
  - node; [exact I | |].
    + assert (Hconv : ∀ layer F,
                every_node ok
                  (tf_layers_conv2d layer
                     (fst (_batch_norm_relu (fst blocks) "channels_first"
                             (batchnorm a) (training a) path (snd blocks)))
                     F 3 "same" (negb (batchnorm a)) "channels_first")).
      { intros layer F. node; [simpl; auto |].
        by apply every_node_batch_norm_relu. }
      destruct (circular a) eqn:Ec; [| apply Hconv].
      apply every_node_crop; [exact Ec | apply Hconv].
    + destruct (true && negb _); [apply every_node_conv2d; auto | exact Hx].
  - destruct (circular a) eqn:Ec; [| exact Hb].
    by apply every_node_crop.
Qed.

Lemma every_node_prox (estimate : graph) (dense : option graph) (path : string)
    (c : gmap string nat) :
  every_node ok estimate →
  (∀ d, dense = Some d → every_node ok d ∧ do_dense a = true) →
  let r := fst (prox_block a estimate dense path c) in
  every_node ok (fst r)
  ∧ ∀ d, snd r = Some d → every_node ok d ∧ do_dense a = true.
Proof.
  intros He Hd. cbv zeta. unfold prox_block. build_unfold.
  set (net_in := match dense with Some d => _ | None => _ end).
  assert (Hin : every_node ok net_in).
  { subst net_in. destruct dense as [d |].
    - destruct (Hd d eq_refl) as [Hd1 Hd2].
      node; [split; [exact Hd2 | reflexivity] | | exact Hd1].
      node; [by left | exact He].
    - node; [by left | exact He]. }
  pose proof (every_node_prior net_in (Some (py_index (tf_shape estimate) (-1)))
                "prior_grad_resnet" path c Hin) as Hp.
  cbv zeta in Hp.
  destruct (prior_grad_res_net _ _ _ _ _ _ _ _ _ _ _ _ _) as [[net dk] c'].
  cbn [fst snd] in *. destruct Hp as [Hnet Hdk]. split.
  - node; [exact I |]. node; [by right | exact Hnet].
  - intros d E. destruct (do_dense a) eqn:Edd; [| by apply Hd].
    split; [| reflexivity].
    destruct dense as [d0 |]; injection E as <-; [| exact Hdk].
    destruct (Hd d0 eq_refl) as [Hd1 _].
    node; [split; [exact Edd | reflexivity] | exact Hd1 | exact Hdk].
Qed.

Lemma every_node_iteration (sensemap : option graph) (mask im_0 : graph)
    (i : nat) (st : ista_state graph) (path : string) (c : gmap string nat) :
  (∀ s, sensemap = Some s → every_node ok s) →
  every_node ok mask → every_node ok im_0 → state_ok a old st →
  state_ok a old (fst (iteration a sensemap mask im_0 i st path c)).
Proof.
  intros Hs Hm H0 (Hks & Him & Hd & Hsum).
  rewrite iteration_unfold. cbv zeta. cbn [fst].
  set (ks := tf_multiply mask (model_forward (im_k st) sensemap)).
  assert (Hks' : every_node ok ks).
  { node; [exact I | exact Hm |].
    node; [exact I | exact Him | exact Hs]. }
  match goal with
  | |- context [ prox_block a ?e ?d ?p ?cc ] =>
      assert (He : every_node ok e);
      [| pose proof (every_node_prox e d p cc He Hd) as Hp;
         set (out := fst (prox_block a e d p cc)) in * ]
  end.
  { node; [exact I | |].
    - node; [exact I | exact Him].
    - node; [exact I | |].
      + destruct (fix_update a) eqn:Ef; node; simpl; auto.
      + node; [exact I |]. node; [exact I | | exact H0].
        node; [exact I | exact Hks' | exact Hs]. }
  cbv zeta in Hp. destruct Hp as [Hout Hdense].
  assert (Himage : every_node ok (tf_identity (fst out) "image"))
    by (node; [exact I | exact Hout]).
  split; [| split; [| split]]; cbn [ks_k im_k im_dense summary_iter].
  - exact Hks'.
  - exact Himage.
  - exact Hdense.
  - intros key g Hg. apply lookup_insert_Some in Hg as [[_ <-] | [_ Hg]].
    + exact Himage.
    + by apply (Hsum key).
Qed.
End Vocabulary.

Section VocabularyRun.
Variables forward_shape transpose_shape' : list Z → option (list Z) → list Z.
Let ops : TensorOps graph := Graph.ops forward_shape transpose_shape'.
#[local] Existing Instance ops.

(** X11: every operation of the graphs [unroll_ista] returns (image,
    k-space and every diagnostic) either conforms to the arguments of the
    call, in the sense of [layer_conforms], or is an operation of one of the
    graphs the call was given. *)
Theorem graph_vocabulary (ks_input : graph) (sensemap : option graph)
    (a : ista_args) (mask_output mask : option graph) (path : string)
    (c : gmap string nat) :
  let ok n :=
    layer_conforms a n ∨ n ∈ input_nodes ks_input sensemap mask_output mask in
  let '(im_out, ks_out, summary) :=
    fst (unroll_ista ks_input sensemap a mask_output mask path c) in
  every_node ok im_out ∧ every_node ok ks_out
  ∧ ∀ key g, summary !! key = Some g → every_node ok g.
Proof.
  set (old := λ n, n ∈ input_nodes ks_input sensemap mask_output mask).
  intros ok.
  assert (Hin : every_node ok ks_input).
  { apply every_node_old. intros n Hn. unfold old, input_nodes.
    apply elem_of_app. by left. }
  assert (Hs : ∀ s, sensemap = Some s → every_node ok s).
  { intros s ->. apply every_node_old. intros n Hn. unfold old, input_nodes.
    apply elem_of_app. right. apply elem_of_app. by left. }
  assert (Hmo : ∀ s, mask_output = Some s → every_node ok s).
  { intros s ->. apply every_node_old. intros n Hn. unfold old, input_nodes.
    apply elem_of_app. right. apply elem_of_app. right.
    apply elem_of_app. by left. }
  assert (Hm : every_node ok (used_mask ks_input mask)).
  { destruct mask as [m |]; simpl.
    - apply every_node_old. intros n Hn. unfold old, input_nodes.
      apply elem_of_app. right. apply elem_of_app. right.
      apply elem_of_app. by right.
    - node; [exact I | exact Hin]. }
  assert (Hks0 : every_node ok (masked_input ks_input mask)).
  { node; [exact I | exact Hm | exact Hin]. }
  assert (H0 : every_node ok (anchor_image ks_input sensemap mask)).
  { node; [exact I |].
    node; [exact I | exact Hks0 | exact Hs]. }
  assert (Hst : ∀ n, state_ok a old (state_after n ks_input sensemap a mask path)).
  { induction n as [|n IH].
    - split; [| split; [| split]]; simpl; done.
    - rewrite state_after_S. by apply every_node_iteration. }
  rewrite unroll_ista_run. cbv zeta.
  destruct (Hst (Z.to_nat (num_grad_steps a))) as (_ & Him & _ & Hsum).
  set (st := state_after _ _ _ _ _ _) in *.
  assert (Hpred : every_node ok (model_forward (im_k st) sensemap)).
  { node; [exact I | exact Him | exact Hs]. }
  destruct (hard_projection a) eqn:Eh.
  - assert (Hproj : every_node ok
                      (projected ks_input mask mask_output
                         (model_forward (im_k st) sensemap))).
    { unfold projected. cbv zeta.
      match goal with
      | |- every_node ok (match mask_output with Some mo => tf_multiply ?k mo | None => _ end) =>
          assert (Hk : every_node ok k)
      end.
      { node; [exact I | |].
        - node; [exact I | exact Hm | exact Hks0].
        - node; [exact I | | exact Hpred].
          node; [exact I | | exact Hm].
          node. simpl. auto. }
      destruct mask_output as [mo |]; [| exact Hk].
      node; [exact I | exact Hk | by apply Hmo]. }
    split; [| split].
    + node; [exact I |].
      node; [exact I | exact Hproj | exact Hs].
    + node; [exact I | exact Hproj].
    + exact Hsum.
  - split; [| split].
    + node; [exact I | exact Him].
    + node; [exact I | exact Hpred].
    + exact Hsum.
Qed.
End VocabularyRun.

(** ** Examples of the further properties *)

(** X1 at a circular convolution of kernel size 3 over an 8 by 8 input. *)
Lemma conv2d_keeps_extent_witness :
  let ops := Graph.ops (λ s _, s) (λ s _, s) in
  let x := Placeholder "x" [1; 8; 8; 2] in
  tf_shape x = [1; 8; 8; 2] ∧ 0 ≤ 8 ∧ 0 ≤ 2
  ∧ tf_shape (fst (_conv2d x 4 3 "channels_last" true false "" ∅))
    = conv2d_same_shape (tf_shape x) 4 "channels_last".
Proof.
  intros ops x. split; [reflexivity |]. split; [lia |]. split; [lia |].
  exact (conv2d_keeps_extent (H := ops) x 4 3 "channels_last" true false "" ∅
           1 8 8 2 eq_refl ltac:(lia) ltac:(lia) ltac:(lia)).
Defined.

(** X2 at a two-channel input of 8 by 8, channels first, two blocks of four
    features. *)
Lemma prior_shapes_witness :
  let ops := Graph.ops (λ s _, s) (λ s _, s) in
  let x := Placeholder "x" [1; 2; 8; 8] in
  tf_shape x = [1; 2; 8; 8] ∧ 0 ≤ 2 ∧ 0 ≤ 8 ∧ 0 ≤ 2 ∧ 1 ≤ 3
  ∧ let '(net, net_dense) :=
      fst (prior_grad_res_net x 4 3 2 true "channels_first" true true true
             None "prior_grad_resnet" "" ∅) in
    tf_shape net = [1; 2; 8; 8] ∧ tf_shape net_dense = [1; 4; 8; 8].
Proof.
  intros ops x. split; [reflexivity |]. split; [lia |]. split; [lia |].
  split; [lia |]. split; [lia |].
  pose proof (prior_shapes (H := ops) x 4 3 2 true "channels_first" true true
                true None "prior_grad_resnet" "" ∅ 1 2 8 8 eq_refl
                ltac:(lia) ltac:(lia) ltac:(lia) ltac:(intros _; lia)) as W.
  unfold data_axes in W.
  change (String.eqb "channels_first" "channels_last") with false in W.
  cbv beta iota zeta in W.
  destruct (fst (prior_grad_res_net _ _ _ _ _ _ _ _ _ _ _ _ _)) as [net dense].
  exact W.
Defined.

(** X3 at the same network: six convolutions and five batch
    normalisations. *)
Lemma prior_layers_witness :
  let ops := Graph.ops (λ s _, s) (λ s _, s) in
  let x := Placeholder "x" [1; 2; 8; 8] in
  tf_shape x = [1; 2; 8; 8]
  ∧ let c' := snd (prior_grad_res_net x 4 3 2 true "channels_first" true true
                     true None "prior_grad_resnet" "" ∅) in
    layers_created c' "conv2d" = 6%nat
    ∧ layers_created c' "batch_normalization" = 5%nat.
Proof.
  intros ops x. split; [reflexivity |].
  exact (prior_layers (H := ops) x 4 3 2 true "channels_first" true true true
           None "prior_grad_resnet" "" ∅ 1 2 8 8 eq_refl).
Defined.

(** X5 at the iterations 0 and 1 of a network with shared weights. *)
Lemma shared_iterations_witness :
  let ops := Graph.ops (λ s _, s) (λ s _, s) in
  let mask := Placeholder "mask" [1; 8; 8; 2] in
  let im_0 := Placeholder "im_0" [1; 8; 8] in
  let st := {| ks_k := Placeholder "ks" [1; 8; 8; 2]; im_k := im_0;
               im_dense := None; summary_iter := ∅ |} in
  resblock_share shared_weights = true
  ∧ let r := fst (iteration shared_weights None mask im_0 0 st "MRI" ∅) in
    let r' := fst (iteration shared_weights None mask im_0 1 st "MRI" ∅) in
    ks_k r = ks_k r' ∧ im_k r = im_k r' ∧ im_dense r = im_dense r'.
Proof.
  intros ops mask im_0 st. split; [reflexivity |].
  exact (shared_iterations (H := ops) shared_weights None mask im_0 0 1 st
           "MRI" ∅ eq_refl).
Defined.

(** X6 at the two-coil example with one iteration. *)
Lemma no_projection_witness :
  let ops := Gauss.ops Gauss.initial_params in
  let ks_input := Gauss.first_coil Gauss.one in
  let sensemap := Some (Gauss.all_coils Gauss.one) in
  hard_projection soft_output = false
  ∧ let n := Z.to_nat (num_grad_steps soft_output) in
    let last := im_k (state_after n ks_input sensemap soft_output None "") in
    let '(im_out, ks_out, summary) :=
      fst (unroll_ista ks_input sensemap soft_output (Some (tf_constant 1))
             None "" ∅) in
    im_out = tf_identity last "output_image"
    ∧ ks_out = tf_identity (model_forward last sensemap) "output_kspace"
    ∧ (∀ i, n = S i → summary !! iter_name i = Some last)
    ∧ ∀ mask_output' c',
        fst (unroll_ista ks_input sensemap soft_output mask_output' None "" c')
        = (im_out, ks_out, summary).
Proof.
  intros ops ks_input sensemap. split; [reflexivity |].
  exact (no_projection (H := ops) ks_input sensemap soft_output
           (Some (tf_constant 1)) None "" ∅ eq_refl).
Defined.

(** X7 at the two-coil example: -1 iterations are 0 iterations. *)
Lemma no_iterations_witness :
  let ops := Gauss.ops Gauss.initial_params in
  let ks_input := Gauss.first_coil Gauss.one in
  let sensemap := Some (Gauss.all_coils Gauss.one) in
  num_grad_steps negative_steps ≤ 0 ∧ num_grad_steps Gauss.zero_steps ≤ 0
  ∧ hard_projection negative_steps = hard_projection Gauss.zero_steps
  ∧ snd (fst (unroll_ista ks_input sensemap negative_steps
                (Some (tf_constant 1)) None "" ∅)) = ∅
  ∧ fst (unroll_ista ks_input sensemap negative_steps (Some (tf_constant 1))
           None "" ∅)
    = fst (unroll_ista ks_input sensemap Gauss.zero_steps
             (Some (tf_constant 1)) None "" ∅).
Proof.
  intros ops ks_input sensemap.
  assert (H1 : num_grad_steps negative_steps ≤ 0) by (simpl; lia).
  assert (H2 : num_grad_steps Gauss.zero_steps ≤ 0) by (simpl; lia).
  split; [exact H1 |]. split; [exact H2 |]. split; [reflexivity |].
  exact (no_iterations (H := ops) ks_input sensemap negative_steps
           Gauss.zero_steps (Some (tf_constant 1)) None "" "" ∅ ∅ H1 H2 eq_refl).
Defined.


(** X9 at an estimate of 8 by 8 with two real channels and the default
    arguments. *)
Lemma prox_block_keeps_shape_witness :
  let ops := Graph.ops (λ s _, s) (λ s _, s) in
  let estimate := Placeholder "estimate" [1; 8; 8; 2] in
  tf_shape estimate = [1; 8; 8; 2] ∧ 0 ≤ 8
  ∧ 0 ≤ resblock_num_blocks default_args
  ∧ ∃ y, fst (fst (prox_block default_args estimate None "" ∅))
         = channels_to_complex y
         ∧ tf_shape y = tf_shape estimate.
Proof.
  intros ops estimate.
  assert (Hb : 0 ≤ resblock_num_blocks default_args) by (simpl; lia).
  split; [reflexivity |]. split; [lia |]. split; [exact Hb |].
  exact (prox_block_keeps_shape (H := ops) default_args estimate None "" ∅
           1 8 8 2 eq_refl ltac:(lia) ltac:(lia) (λ _, Hb)).
Defined.

(** X10 at the 3 by 3 image. *)
Lemma layout_round_trip_witness :
  let ops := Gauss.ops Gauss.initial_params in
  let x := Gauss.ramp in
  Numeric.nshape x = [1; 3; 3; 1]
  ∧ let first := tf_transpose x [0; 3; 1; 2] in
    let back := tf_transpose first [0; 2; 3; 1] in
    tf_shape first = [1; 1; 3; 3]
    ∧ Numeric.ndata first [0; 0; 1; 2] = Numeric.ndata x [0; 1; 2; 0]
    ∧ tf_shape back = Numeric.nshape x
    ∧ Numeric.ndata back [0; 1; 2; 0] = Numeric.ndata x [0; 1; 2; 0].
Proof.
  intros ops x. split; [reflexivity |].
  exact (layout_round_trip (Gauss.numerics Gauss.initial_params) x 1 3 3 1
           0 0 1 2 eq_refl).
Defined.
